(** * Deploy construction of the Casper client SDK

    A shallow embedding of [packages/sdk/src/lib/DeployUtil.ts] and of
    [option.ts]: the canonical byte encoding of deploy headers and of the six
    execution items, the tagged-union wrapper, the assembly of a deploy with
    its two digests, and the approval protocol.

    Conventions.
    - A [ByteArray] / [Uint8Array] is a [list byte].
    - A JavaScript [number] that carries a count, a version, a time or an id
      is an integer in [Z]; [null] and [undefined] are [None].
    - A JavaScript [string] is the [string] of its UTF-8 bytes.
    - A call that can [throw] returns a [result]; the error carries the
      message given to [new Error].
    - Objects that are mutated after construction ([Deploy.approvals]) live
      in a store addressed by references. *)

From Stdlib Require Import ZArith List String Ascii Bool Lia.
From Stdlib.Strings Require Import Byte.
From stdpp Require Import base option gmap.
Import ListNotations.

Local Open Scope Z_scope.
Local Open Scope list_scope.

(** ** Exceptions *)

Inductive result (A : Type) : Type :=
| Ok (a : A)
| Throw (message : string).
Arguments Ok {A} a.
Arguments Throw {A} message.

Definition result_bind {A B} (c : result A) (k : A -> result B) : result B :=
  match c with
  | Ok a => k a
  | Throw m => Throw m
  end.

Notation "'let?' x ':=' c 'in' k" := (result_bind c (fun x => k))
  (at level 10, x name, c at level 100, k at level 200).

Definition succeeds {A} (c : result A) : bool :=
  match c with Ok _ => true | Throw _ => false end.

(** ** Byte arrays *)

Definition ByteArray : Type := list byte.

Definition ByteArray_eq_dec (a b : ByteArray) : {a = b} + {a <> b} :=
  List.list_eq_dec Byte.byte_eq_dec a b.

(** The low eight bits of an integer, as a byte. *)
Definition byte_of_Z (z : Z) : byte :=
  match Byte.of_N (Z.to_N (z mod 256)) with
  | Some b => b
  | None => x00
  end.

Definition Z_of_byte (b : byte) : Z := Z.of_N (Byte.to_N b).

(** [concat] of [@ethersproject/bytes] is [List.concat]. *)

(** ** byterepr *)

(** Fixed-width little-endian layout: the least significant byte first,
    [width] bytes in all. *)
Fixpoint toBytesLE (width : nat) (n : Z) : ByteArray :=
  match width with
  | O => []
  | S w => byte_of_Z n :: toBytesLE w (n / 256)
  end.

(** The value a little-endian byte sequence stands for. *)
Fixpoint fromBytesLE (bs : ByteArray) : Z :=
  match bs with
  | [] => 0
  | b :: rest => Z_of_byte b + 256 * fromBytesLE rest
  end.

(** Modelled from the spec: [byterepr.toBytesU32] is not among the sources;
    section 4.1 gives counts and versions a fixed width of 32 bits, least
    significant byte first.  The argument is meant in [0, 2^32). *)
Definition toBytesU32 (n : Z) : ByteArray := toBytesLE 4 n.

(** Modelled from the spec: [byterepr.toBytesU64] is not among the sources;
    section 4.1 gives timestamp, ttl and gas price a fixed width of 64 bits,
    least significant byte first.  The argument is meant in [0, 2^64). *)
Definition toBytesU64 (n : Z) : ByteArray := toBytesLE 8 n.

(** Modelled from the spec: [byterepr.toBytesArrayU8] is not among the
    sources; section 4.1: a variable-length byte sequence is an unsigned
    32-bit count followed by the raw bytes. *)
Definition toBytesArrayU8 (arr : ByteArray) : ByteArray :=
  List.concat [toBytesU32 (Z.of_nat (length arr)); arr].

(** Modelled from the spec: [byterepr.toBytesBytesArray] is not among the
    sources; section 4.1: a fixed-size hash is encoded raw, without a length
    prefix. *)
Definition toBytesBytesArray (arr : ByteArray) : ByteArray := arr.

(** Modelled from the spec: [byterepr.toBytesDeployHash] is not among the
    sources; section 4.1: a 32-byte digest is encoded raw. *)
Definition toBytesDeployHash (deployHash : ByteArray) : ByteArray :=
  toBytesBytesArray deployHash.

(** The UTF-8 bytes of a string. *)
Definition utf8 (s : string) : ByteArray := list_byte_of_string s.

(** Modelled from the spec: [byterepr.toBytesString] is not among the
    sources; section 4.1: a string is an unsigned 32-bit byte count followed
    by its UTF-8 bytes. *)
Definition toBytesString (str : string) : ByteArray :=
  toBytesArrayU8 (utf8 str).

(** The interface [ToBytes]. *)
Class ToBytes (T : Type) : Type := to_bytes : T -> ByteArray.

(** Modelled from the spec: [byterepr.toBytesVecT] is not among the sources;
    section 4.1: a list of encodable elements is a 32-bit count followed by
    each element's own encoding, in list order. *)
Definition toBytesVecT {T} `{ToBytes T} (vec : list T) : ByteArray :=
  List.concat (toBytesU32 (Z.of_nat (length vec)) :: map to_bytes vec).

(** ** Conversions *)

Definition hexDigits : list ascii :=
  list_ascii_of_string "0123456789abcdef".

Definition hexDigit (n : N) : ascii := nth (N.to_nat n) hexDigits "0"%char.

Fixpoint hexIndex (digits : list ascii) (c : ascii) : N :=
  match digits with
  | [] => 0%N
  | d :: rest => if Ascii.eqb d c then 0%N else N.succ (hexIndex rest c)
  end.

(** Modelled from the spec: [Conversions.encodeBase16] is not among the
    sources; section 3 renders byte arrays as hex strings: two lower-case
    hexadecimal digits per byte, the high nibble first. *)
Fixpoint encodeBase16 (bytes : ByteArray) : string :=
  match bytes with
  | [] => EmptyString
  | b :: rest =>
      String (hexDigit (Byte.to_N b / 16))
        (String (hexDigit (Byte.to_N b mod 16)) (encodeBase16 rest))
  end.

(** Modelled from the spec: [Conversions.decodeBase16] is not among the
    sources; it reads back what [encodeBase16] writes.  A trailing odd digit
    is dropped. *)
Fixpoint decodeBase16 (base16String : string) : ByteArray :=
  match base16String with
  | String hi (String lo rest) =>
      byte_of_Z (Z.of_N (16 * hexIndex hexDigits hi + hexIndex hexDigits lo))
        :: decodeBase16 rest
  | _ => []
  end.

(** ** CLType and the typed values used by deploys *)

(** Modelled from the spec: the type descriptors of [CLValue.ts] (not among
    the sources) that this module names through [CLTypeHelper]. *)
Inductive CLType : Type :=
| CLType_u32
| CLType_u64
| CLType_u512
| CLType_uref
| CLType_byteArray (size : nat)
| CLType_option (innerType : CLType).

(** The interface [CLTyped]; together with [ToBytes] it is
    [CLTypedAndToBytes]. *)
Class CLTyped (T : Type) : Type := clType : T -> CLType.

(** [U32] of [CLValue.ts]: an unsigned 32-bit number. *)
Record U32 : Type := new_U32 { U32_value : Z }.
#[export] Instance U32_ToBytes : ToBytes U32 := fun n => toBytesU32 (U32_value n).
#[export] Instance U32_CLTyped : CLTyped U32 := fun _ => CLType_u32.

(** [U64] of [CLValue.ts]: an unsigned 64-bit number. *)
Record U64 : Type := new_U64 { U64_value : Z }.
#[export] Instance U64_ToBytes : ToBytes U64 := fun n => toBytesU64 (U64_value n).
#[export] Instance U64_CLTyped : CLTyped U64 := fun _ => CLType_u64.

(** ** option.ts *)

Definition OPTION_TAG_NONE : Z := 0.
Definition OPTION_TAG_SOME : Z := 1.

Module Option.

Record Option (T : Type) : Type := mk {
  t : option T;
  innerType : option CLType
}.
Arguments mk {T} _ _.
Arguments t {T} _.
Arguments innerType {T} _.

Section Methods.
Context {T : Type} `{ToBytes T} `{CLTyped T}.

(** [new Option(t, innerType)]: an absent value needs a type descriptor; a
    present value brings its own. *)
Definition new (t : option T) (innerType : option CLType)
  : result (Option T) :=
  match t with
  | None =>
      match innerType with
      | None => Throw "You had to assign innerType for None"
      | Some _ => Ok (mk None innerType)
      end
  | Some v => Ok (mk (Some v) (Some (clType v)))
  end.

Definition isNone (self : Option T) : bool :=
  match t self with None => true | Some _ => false end.

Definition isSome (self : Option T) : bool :=
  match t self with None => false | Some _ => true end.

Definition toBytes (self : Option T) : ByteArray :=
  match t self with
  | None => [byte_of_Z OPTION_TAG_NONE]
  | Some v => List.concat [[byte_of_Z OPTION_TAG_SOME]; to_bytes v]
  end.

End Methods.

End Option.

#[export] Instance Option_ToBytes {T} `{ToBytes T} : ToBytes (Option.Option T) :=
  Option.toBytes.

(** ** Keys, references and the values of an argument map *)

Inductive SignatureAlgorithm : Type :=
| Ed25519
| Secp256K1.

Record PublicKey : Type := mkPublicKey {
  rawPublicKey : ByteArray;
  PublicKey_signatureAlgorithm : SignatureAlgorithm
}.

Record AsymmetricKey : Type := mkAsymmetricKey {
  publicKey : PublicKey;
  privateKey : ByteArray;
  signatureAlgorithm : SignatureAlgorithm
}.

Record URef : Type := mkURef {
  uRefAddr : ByteArray;
  accessRights : Z
}.

(** The key library ([Keys.ts], [CLValue.PublicKey]) is an external
    collaborator: its encodings and its signature function are taken as
    they are. *)
Class KeyLibrary : Type := {
  PublicKey_toBytes : PublicKey -> ByteArray;
  PublicKey_toAccountHash : PublicKey -> ByteArray;
  PublicKey_toAccountHex : PublicKey -> string;
  AsymmetricKey_sign : AsymmetricKey -> ByteArray -> ByteArray;
  AsymmetricKey_accountHex : AsymmetricKey -> string;
  Ed25519_accountHex : ByteArray -> string;
  Secp256K1_accountHex : ByteArray -> string
}.

(** [blake.blake2b(input, key, outlen)] of [blakejs]: an external function
    whose output has the length asked for. *)
Class Blake : Type := {
  blake2b : ByteArray -> option ByteArray -> nat -> ByteArray;
  blake2b_length :
    forall input key outlen, length (blake2b input key outlen) = outlen
}.

(** Modelled from the spec: the values of [CLValue.ts] (not among the
    sources) that a transfer stores in its argument map, each kept as the
    typed value it was made from. *)
Inductive CLValue : Type :=
| CLValue_u512 (amount : Z)
| CLValue_uref (uref : URef)
| CLValue_byteArray (bytes : ByteArray)
| CLValue_fromOption (o : Option.Option U64).

(** [CLValue.option(t, innerType)] wraps [new Option(t, innerType)]. *)
Definition CLValue_option (t : option U64) (innerType : option CLType)
  : result CLValue :=
  let? o := Option.new t innerType in
  Ok (CLValue_fromOption o).

(** [CLTypedAndToBytesHelper.u64]. *)
Definition CLTypedAndToBytesHelper_u64 (n : Z) : U64 := new_U64 n.

Module RuntimeArgs.

(** Modelled from the spec: [RuntimeArgs.ts] is not among the sources; an
    argument map is an ordered mapping from argument name to typed value.
    The entries are kept in insertion order, a name at most once. *)
Record t : Type := mk { args : list (string * CLValue) }.

Definition fromMap (entries : list (string * CLValue)) : t := mk entries.

Fixpoint set (key : string) (value : CLValue) (l : list (string * CLValue))
  : list (string * CLValue) :=
  match l with
  | [] => [(key, value)]
  | (k, v) :: rest =>
      if String.eqb k key then (key, value) :: rest
      else (k, v) :: set key value rest
  end.

Fixpoint get (key : string) (l : list (string * CLValue)) : option CLValue :=
  match l with
  | [] => None
  | (k, v) :: rest => if String.eqb k key then Some v else get key rest
  end.

(** [insert(key, value)] is [this.args[key] = value]. *)
Definition insert (key : string) (value : CLValue) (self : t) : t :=
  mk (set key value (args self)).

End RuntimeArgs.

(** The serialization of an argument map is an external collaborator. *)
Class RuntimeArgsCodec : Type :=
  RuntimeArgs_toBytes : RuntimeArgs.t -> ByteArray.

(** ** DeployHeader *)

(** [DeployHash]: a digest that encodes as itself. *)
Record DeployHash : Type := new_DeployHash { DeployHash_hash : ByteArray }.
#[export] Instance DeployHash_ToBytes : ToBytes DeployHash :=
  fun self => toBytesDeployHash (DeployHash_hash self).

Module DeployHeader.

Record t : Type := new {
  account : PublicKey;
  timestamp : Z;
  ttl : Z;
  gasPrice : Z;
  bodyHash : ByteArray;
  dependencies : list ByteArray;
  chainName : string
}.

Definition toBytes `{KeyLibrary} (self : t) : ByteArray :=
  List.concat [
    PublicKey_toBytes (account self);
    toBytesU64 (timestamp self);
    toBytesU64 (ttl self);
    toBytesU64 (gasPrice self);
    toBytesDeployHash (bodyHash self);
    toBytesVecT (map new_DeployHash (dependencies self));
    toBytesString (chainName self)
  ].

End DeployHeader.

(** ** Approval *)

Module Approval.
Record t : Type := mk {
  signer : string;
  signature : string
}.
End Approval.

(** ** The six execution items *)

Module ModuleBytes.
Record t : Type := new {
  moduleBytes : ByteArray;
  args : RuntimeArgs.t
}.
Definition tag : Z := 0.
Definition toBytes `{RuntimeArgsCodec} (self : t) : ByteArray :=
  List.concat [
    [byte_of_Z tag];
    toBytesArrayU8 (moduleBytes self);
    toBytesArrayU8 (RuntimeArgs_toBytes (args self))
  ].
End ModuleBytes.

Module StoredContractByHash.
Record t : Type := new {
  hash : ByteArray;
  entryPoint : string;
  args : RuntimeArgs.t
}.
Definition tag : Z := 1.
Definition toBytes `{RuntimeArgsCodec} (self : t) : ByteArray :=
  List.concat [
    [byte_of_Z tag];
    toBytesBytesArray (hash self);
    toBytesString (entryPoint self);
    toBytesArrayU8 (RuntimeArgs_toBytes (args self))
  ].
End StoredContractByHash.

Module StoredContractByName.
Record t : Type := new {
  name : string;
  entryPoint : string;
  args : RuntimeArgs.t
}.
Definition tag : Z := 2.
Definition toBytes `{RuntimeArgsCodec} (self : t) : ByteArray :=
  List.concat [
    [byte_of_Z tag];
    toBytesString (name self);
    toBytesString (entryPoint self);
    toBytesArrayU8 (RuntimeArgs_toBytes (args self))
  ].
End StoredContractByName.

(** The optional version of the two versioned items: [null] becomes
    [new Option(null, CLTypeHelper.u32())], a number [v] becomes
    [new Option(new U32(v))]. *)
Definition serializedVersion (version : option Z) : result (Option.Option U32) :=
  match version with
  | None => Option.new None (Some CLType_u32)
  | Some v => Option.new (Some (new_U32 v)) None
  end.

Module StoredVersionedContractByName.
Record t : Type := new {
  name : string;
  version : option Z;
  entryPoint : string;
  args : RuntimeArgs.t
}.
Definition tag : Z := 4.
Definition toBytes `{RuntimeArgsCodec} (self : t) : result ByteArray :=
  let? serializedVersion := serializedVersion (version self) in
  Ok (List.concat [
    [byte_of_Z tag];
    toBytesString (name self);
    Option.toBytes serializedVersion;
    toBytesString (entryPoint self);
    toBytesArrayU8 (RuntimeArgs_toBytes (args self))
  ]).
End StoredVersionedContractByName.

Module StoredVersionedContractByHash.
Record t : Type := new {
  hash : ByteArray;
  version : option Z;
  entryPoint : string;
  args : RuntimeArgs.t
}.
Definition tag : Z := 3.
Definition toBytes `{RuntimeArgsCodec} (self : t) : result ByteArray :=
  let? serializedVersion := serializedVersion (version self) in
  Ok (List.concat [
    [byte_of_Z tag];
    toBytesBytesArray (hash self);
    Option.toBytes serializedVersion;
    toBytesString (entryPoint self);
    toBytesArrayU8 (RuntimeArgs_toBytes (args self))
  ]).
End StoredVersionedContractByHash.

(** What a JavaScript caller can hand over as the [target] of a transfer:
    an instance of [URef], an instance of [PublicKey], or neither
    ([undefined] when the argument is left out). *)
Inductive TransferTarget : Type :=
| Target_URef (uref : URef)
| Target_PublicKey (key : PublicKey)
| Target_missing.

(** [!n] for [n : number | null | undefined]: absent and zero are falsy. *)
Definition falsy (n : option Z) : bool :=
  match n with
  | None => true
  | Some z => z =? 0
  end.

Module Transfer.
Record t : Type := mk { args : RuntimeArgs.t }.
Definition tag : Z := 5.

(** [new Transfer(amount, target, sourcePurse, id)]; a parameter left out
    is [None], and [id] defaults to [null]. *)
Definition new `{KeyLibrary} (amount : Z) (target : TransferTarget)
    (sourcePurse : option URef) (id : option Z) : result t :=
  let runtimeArgs := RuntimeArgs.fromMap [] in
  let runtimeArgs := RuntimeArgs.insert "amount" (CLValue_u512 amount) runtimeArgs in
  let runtimeArgs :=
    match sourcePurse with
    | Some purse => RuntimeArgs.insert "source" (CLValue_uref purse) runtimeArgs
    | None => runtimeArgs
    end in
  let? runtimeArgs :=
    match target with
    | Target_URef uref =>
        Ok (RuntimeArgs.insert "target" (CLValue_uref uref) runtimeArgs)
    | Target_PublicKey key =>
        Ok (RuntimeArgs.insert "target"
              (CLValue_byteArray (PublicKey_toAccountHash key)) runtimeArgs)
    | Target_missing => Throw "Please specify target"
    end in
  let? idValue :=
    if falsy id then CLValue_option None (Some CLType_u64)
    else CLValue_option
           (option_map CLTypedAndToBytesHelper_u64 id) (Some CLType_u64) in
  Ok (mk (RuntimeArgs.insert "id" idValue runtimeArgs)).

Definition toBytes `{RuntimeArgsCodec} (self : t) : ByteArray :=
  List.concat [
    [byte_of_Z tag];
    toBytesArrayU8 (RuntimeArgs_toBytes (args self))
  ].
End Transfer.

Module ExecutableDeployItem.

(** The abstract class, closed over its six subclasses. *)
Inductive t : Type :=
| ofModuleBytes (item : ModuleBytes.t)
| ofStoredContractByHash (item : StoredContractByHash.t)
| ofStoredContractByName (item : StoredContractByName.t)
| ofStoredVersionedContractByHash (item : StoredVersionedContractByHash.t)
| ofStoredVersionedContractByName (item : StoredVersionedContractByName.t)
| ofTransfer (item : Transfer.t).

Definition tag (self : t) : Z :=
  match self with
  | ofModuleBytes _ => ModuleBytes.tag
  | ofStoredContractByHash _ => StoredContractByHash.tag
  | ofStoredContractByName _ => StoredContractByName.tag
  | ofStoredVersionedContractByHash _ => StoredVersionedContractByHash.tag
  | ofStoredVersionedContractByName _ => StoredVersionedContractByName.tag
  | ofTransfer _ => Transfer.tag
  end.

Definition args (self : t) : RuntimeArgs.t :=
  match self with
  | ofModuleBytes i => ModuleBytes.args i
  | ofStoredContractByHash i => StoredContractByHash.args i
  | ofStoredContractByName i => StoredContractByName.args i
  | ofStoredVersionedContractByHash i => StoredVersionedContractByHash.args i
  | ofStoredVersionedContractByName i => StoredVersionedContractByName.args i
  | ofTransfer i => Transfer.args i
  end.

Definition toBytes `{RuntimeArgsCodec} (self : t) : result ByteArray :=
  match self with
  | ofModuleBytes i => Ok (ModuleBytes.toBytes i)
  | ofStoredContractByHash i => Ok (StoredContractByHash.toBytes i)
  | ofStoredContractByName i => Ok (StoredContractByName.toBytes i)
  | ofStoredVersionedContractByHash i => StoredVersionedContractByHash.toBytes i
  | ofStoredVersionedContractByName i => StoredVersionedContractByName.toBytes i
  | ofTransfer i => Ok (Transfer.toBytes i)
  end.

(** [this.args.args[argName]]: absent when the name is not in the map. *)
Definition getArgByName (self : t) (argName : string) : option CLValue :=
  RuntimeArgs.get argName (RuntimeArgs.args (args self)).

End ExecutableDeployItem.

(** ** The tagged-union wrapper *)

Module ExecutableDeployItemJsonWrapper.

Record t : Type := mk {
  moduleBytes : option ModuleBytes.t;
  storedContractByHash : option StoredContractByHash.t;
  storedContractByName : option StoredContractByName.t;
  storedVersionedContractByHash : option StoredVersionedContractByHash.t;
  storedVersionedContractByName : option StoredVersionedContractByName.t;
  transfer : option Transfer.t
}.

(** [new ExecutableDeployItemJsonWrapper()]: no slot populated. *)
Definition empty : t := mk None None None None None None.

(** [!!slot]: a slot is populated when it holds an object. *)
Definition isModuleBytes (self : t) : bool := bool_decide (is_Some (moduleBytes self)).
Definition asModuleBytes (self : t) := moduleBytes self.
Definition isStoredContractByHash (self : t) : bool :=
  bool_decide (is_Some (storedContractByHash self)).
Definition asStoredContractByHash (self : t) := storedContractByHash self.
Definition isStoredContractByName (self : t) : bool :=
  bool_decide (is_Some (storedContractByName self)).
Definition asStoredContractByName (self : t) := storedContractByName self.
Definition isStoredVersionContractByName (self : t) : bool :=
  bool_decide (is_Some (storedVersionedContractByName self)).
Definition asStoredVersionContractByName (self : t) :=
  storedVersionedContractByName self.
Definition isStoredVersionContractByHash (self : t) : bool :=
  bool_decide (is_Some (storedVersionedContractByHash self)).
Definition asStoredVersionContractByHash (self : t) :=
  storedVersionedContractByHash self.
Definition isTransfer (self : t) : bool := bool_decide (is_Some (transfer self)).
Definition asTransfer (self : t) := transfer self.

(** [slot!.m()]: the non-null assertion is unchecked, so a method call on an
    empty slot is a [TypeError]. *)
Definition unwrap {A B} (slot : option A) (m : A -> result B) : result B :=
  match slot with
  | Some item => m item
  | None => Throw "TypeError: undefined slot"
  end.

Definition toBytes `{RuntimeArgsCodec} (self : t) : result ByteArray :=
  if isModuleBytes self then
    unwrap (moduleBytes self) (fun i => Ok (ModuleBytes.toBytes i))
  else if isStoredContractByHash self then
    unwrap (storedContractByHash self) (fun i => Ok (StoredContractByHash.toBytes i))
  else if isStoredContractByName self then
    unwrap (storedContractByName self) (fun i => Ok (StoredContractByName.toBytes i))
  else if isStoredVersionContractByHash self then
    unwrap (storedVersionedContractByHash self) StoredVersionedContractByHash.toBytes
  else if isStoredVersionContractByName self then
    unwrap (storedVersionedContractByName self) StoredVersionedContractByName.toBytes
  else if isTransfer self then
    unwrap (transfer self) (fun i => Ok (Transfer.toBytes i))
  else Throw "failed to serialize ExecutableDeployItemJsonWrapper".

Definition fromExecutionDeployItem (item : ExecutableDeployItem.t) : t :=
  let res := empty in
  match item with
  | ExecutableDeployItem.ofModuleBytes i =>
      mk (Some i) (storedContractByHash res) (storedContractByName res)
         (storedVersionedContractByHash res) (storedVersionedContractByName res)
         (transfer res)
  | ExecutableDeployItem.ofStoredContractByHash i =>
      mk (moduleBytes res) (Some i) (storedContractByName res)
         (storedVersionedContractByHash res) (storedVersionedContractByName res)
         (transfer res)
  | ExecutableDeployItem.ofStoredContractByName i =>
      mk (moduleBytes res) (storedContractByHash res) (Some i)
         (storedVersionedContractByHash res) (storedVersionedContractByName res)
         (transfer res)
  | ExecutableDeployItem.ofStoredVersionedContractByHash i =>
      mk (moduleBytes res) (storedContractByHash res) (storedContractByName res)
         (Some i) (storedVersionedContractByName res) (transfer res)
  | ExecutableDeployItem.ofStoredVersionedContractByName i =>
      mk (moduleBytes res) (storedContractByHash res) (storedContractByName res)
         (storedVersionedContractByHash res) (Some i) (transfer res)
  | ExecutableDeployItem.ofTransfer i =>
      mk (moduleBytes res) (storedContractByHash res) (storedContractByName res)
         (storedVersionedContractByHash res) (storedVersionedContractByName res)
         (Some i)
  end.

Definition newModuleBytes (moduleBytes : ByteArray) (args : RuntimeArgs.t) : t :=
  fromExecutionDeployItem
    (ExecutableDeployItem.ofModuleBytes (ModuleBytes.new moduleBytes args)).

Definition newStoredContractByHash (hash : ByteArray) (version : option Z)
    (entryPoint : string) (args : RuntimeArgs.t) : t :=
  fromExecutionDeployItem
    (ExecutableDeployItem.ofStoredVersionedContractByHash
       (StoredVersionedContractByHash.new hash version entryPoint args)).

Definition newStoredContractByName (name : string) (entryPoint : string)
    (args : RuntimeArgs.t) : t :=
  fromExecutionDeployItem
    (ExecutableDeployItem.ofStoredContractByName
       (StoredContractByName.new name entryPoint args)).



Definition newTransfer `{KeyLibrary} (amount : Z) (target : TransferTarget)
    (sourcePurse : option URef) (id : option Z) : result t :=
  let? item := Transfer.new amount target sourcePurse id in
  Ok (fromExecutionDeployItem (ExecutableDeployItem.ofTransfer item)).

(** The slots that are populated, in the order [toBytes] tries them. *)
Definition populated (self : t) : list ExecutableDeployItem.t :=
  List.concat [
    option_list (option_map ExecutableDeployItem.ofModuleBytes (moduleBytes self));
    option_list (option_map ExecutableDeployItem.ofStoredContractByHash
                   (storedContractByHash self));
    option_list (option_map ExecutableDeployItem.ofStoredContractByName
                   (storedContractByName self));
    option_list (option_map ExecutableDeployItem.ofStoredVersionedContractByHash
                   (storedVersionedContractByHash self));
    option_list (option_map ExecutableDeployItem.ofStoredVersionedContractByName
                   (storedVersionedContractByName self));
    option_list (option_map ExecutableDeployItem.ofTransfer (transfer self))
  ].

End ExecutableDeployItemJsonWrapper.

(** ** Deploy *)

Module Deploy.

Record t : Type := new {
  hash : ByteArray;
  header : DeployHeader.t;
  payment : ExecutableDeployItemJsonWrapper.t;
  session : ExecutableDeployItemJsonWrapper.t;
  approvals : list Approval.t
}.

Definition isTransfer (self : t) : bool :=
  ExecutableDeployItemJsonWrapper.isTransfer (session self).

Definition isStandardPayment (self : t) : bool :=
  if ExecutableDeployItemJsonWrapper.isModuleBytes (payment self) then
    match ExecutableDeployItemJsonWrapper.asModuleBytes (payment self) with
    | Some m => Nat.eqb (length (ModuleBytes.moduleBytes m)) 0
    | None => false
    end
  else false.

(** [self.approvals.push(approval)]. *)
Definition push (approval : Approval.t) (self : t) : t :=
  new (hash self) (header self) (payment self) (session self)
      (approvals self ++ [approval]).

End Deploy.

Definition serializeHeader `{KeyLibrary} (deployHeader : DeployHeader.t)
  : ByteArray :=
  DeployHeader.toBytes deployHeader.

Definition serializeBody `{RuntimeArgsCodec}
    (payment session : ExecutableDeployItemJsonWrapper.t) : result ByteArray :=
  let? paymentBytes := ExecutableDeployItemJsonWrapper.toBytes payment in
  let? sessionBytes := ExecutableDeployItemJsonWrapper.toBytes session in
  Ok (List.concat [paymentBytes; sessionBytes]).

Module DeployParams.

Record t : Type := mk {
  accountPublicKey : PublicKey;
  chainName : string;
  gasPrice : Z;
  ttl : Z;
  dependencies : list ByteArray;
  timestamp : Z
}.

(** [new DeployParams(accountPublicKey, chainName, gasPrice, ttl,
    dependencies, timestamp)].  A parameter left out is [None] and takes its
    default; [now] is what [Date.now()] answers during the call.  The
    constructor always leaves a number in [timestamp]. *)
Definition new (accountPublicKey : PublicKey) (chainName : string)
    (gasPrice ttl : option Z) (dependencies : option (list ByteArray))
    (timestamp : option Z) (now : Z) : t :=
  let gasPrice := default 10 gasPrice in
  let ttl := default 3600000 ttl in
  let dependencies := default [] dependencies in
  mk accountPublicKey chainName gasPrice ttl
     (List.filter
        (fun d =>
           Nat.ltb
             (length
                (List.filter
                   (fun t => String.eqb (encodeBase16 d) (encodeBase16 t))
                   dependencies))
             2)
        dependencies)
     (if falsy timestamp then now else default now timestamp).

End DeployParams.

Definition makeDeploy `{Blake} `{KeyLibrary} `{RuntimeArgsCodec}
    (deployParam : DeployParams.t)
    (session payment : ExecutableDeployItemJsonWrapper.t) : result Deploy.t :=
  let? serializedBody := serializeBody payment session in
  let bodyHash := blake2b serializedBody None 32 in
  let header :=
    DeployHeader.new
      (DeployParams.accountPublicKey deployParam)
      (DeployParams.timestamp deployParam)
      (DeployParams.ttl deployParam)
      (DeployParams.gasPrice deployParam)
      bodyHash
      (DeployParams.dependencies deployParam)
      (DeployParams.chainName deployParam) in
  let serializedHeader := serializeHeader header in
  let deployHash := blake2b serializedHeader None 32 in
  Ok (Deploy.new deployHash header payment session []).

(** ** The approval protocol, over a store of deploys *)

(** A [Deploy] is handed around by reference and its approvals are pushed
    in place: deploys live in a store, and a caller holds a reference. *)
Abbreviation ref := nat (only parsing).
Abbreviation Store := (gmap nat Deploy.t) (only parsing).

(** A computation on the store; [None] only for a reference that was never
    allocated, which no caller can hold. *)
Definition StoreM (A : Type) : Type := Store -> option (A * Store).

Definition alloc (d : Deploy.t) : StoreM ref :=
  fun σ => let r := fresh (dom σ) in Some (r, <[r := d]> σ).

Definition load (r : ref) : StoreM Deploy.t :=
  fun σ => match σ !! r with Some d => Some (d, σ) | None => None end.

Definition modify (r : ref) (f : Deploy.t -> Deploy.t) : StoreM unit :=
  fun σ => match σ !! r with
           | Some d => Some (tt, <[r := f d]> σ)
           | None => None
           end.

Definition store_bind {A B} (c : StoreM A) (k : A -> StoreM B) : StoreM B :=
  fun σ => match c σ with
           | Some (a, σ') => k a σ'
           | None => None
           end.

Definition store_ret {A} (a : A) : StoreM A := fun σ => Some (a, σ).

Notation "'let!' x ':=' c 'in' k" := (store_bind c (fun x => k))
  (at level 10, x name, c at level 100, k at level 200).

Definition signDeploy `{KeyLibrary} (deploy : ref) (signingKey : AsymmetricKey)
  : StoreM ref :=
  let! d := load deploy in
  let signature := AsymmetricKey_sign signingKey (Deploy.hash d) in
  let approval :=
    Approval.mk
      (AsymmetricKey_accountHex signingKey)
      (match signatureAlgorithm signingKey with
       | Ed25519 => Ed25519_accountHex signature
       | Secp256K1 => Secp256K1_accountHex signature
       end) in
  let! _ := modify deploy (Deploy.push approval) in
  store_ret deploy.

Definition setSignature `{KeyLibrary} (deploy : ref) (sig : ByteArray)
    (publicKey : PublicKey) : StoreM ref :=
  let approval :=
    Approval.mk
      (PublicKey_toAccountHex publicKey)
      (match PublicKey_signatureAlgorithm publicKey with
       | Ed25519 => Ed25519_accountHex sig
       | Secp256K1 => Secp256K1_accountHex sig
       end) in
  let! _ := modify deploy (Deploy.push approval) in
  store_ret deploy.

(** One call of the approval protocol. *)
Inductive SigningCall : Type :=
| Call_signDeploy (signingKey : AsymmetricKey)
| Call_setSignature (sig : ByteArray) (publicKey : PublicKey).

Definition call `{KeyLibrary} (deploy : ref) (c : SigningCall) : StoreM ref :=
  match c with
  | Call_signDeploy signingKey => signDeploy deploy signingKey
  | Call_setSignature sig publicKey => setSignature deploy sig publicKey
  end.

(** A sequence of calls on one deploy, each made on the reference the
    previous call returned; the answer lists the references returned. *)
Fixpoint calls `{KeyLibrary} (deploy : ref) (cs : list SigningCall)
  : StoreM (list ref) :=
  match cs with
  | [] => store_ret []
  | c :: rest =>
      let! returned := call deploy c in
      let! others := calls returned rest in
      store_ret (returned :: others)
  end.

(** The approval a call is to attach to a deploy whose hash is [hash]: the
    signer's account identifier and the algorithm-tagged signature. *)
Definition approvalOf `{KeyLibrary} (hash : ByteArray) (c : SigningCall)
  : Approval.t :=
  match c with
  | Call_signDeploy k =>
      match signatureAlgorithm k with
      | Ed25519 =>
          Approval.mk (AsymmetricKey_accountHex k)
            (Ed25519_accountHex (AsymmetricKey_sign k hash))
      | Secp256K1 =>
          Approval.mk (AsymmetricKey_accountHex k)
            (Secp256K1_accountHex (AsymmetricKey_sign k hash))
      end
  | Call_setSignature sig pk =>
      match PublicKey_signatureAlgorithm pk with
      | Ed25519 => Approval.mk (PublicKey_toAccountHex pk) (Ed25519_accountHex sig)
      | Secp256K1 =>
          Approval.mk (PublicKey_toAccountHex pk) (Secp256K1_accountHex sig)
      end
  end.

(** ** The dependency filter, in the words of the specification *)

(** The elements whose byte value occurs fewer than two times in the
    input, in input order. *)
Definition occurringOnce (deps : list ByteArray) : list ByteArray :=
  List.filter
    (fun d => Nat.ltb (count_occ ByteArray_eq_dec deps d) 2)
    deps.

(** ** The wire layout, in the words of the specification *)

(** A variable-length byte sequence: an unsigned 32-bit count, least
    significant byte first, then the raw bytes. *)
Definition lengthPrefixed (bs : ByteArray) : ByteArray :=
  toBytesLE 4 (Z.of_nat (length bs)) ++ bs.

(** A string: its UTF-8 bytes, length-prefixed. *)
Definition encodedString (s : string) : ByteArray := lengthPrefixed (utf8 s).

(** An optional 32-bit version: [00] when absent, [01] and the four bytes of
    the version when present. *)
Definition optionalVersion (version : option Z) : ByteArray :=
  match version with
  | None => [x00]
  | Some v => x01 :: toBytesLE 4 v
  end.

(** The table of section 4.3: the discriminant byte of each variant and the
    fields that follow it. *)
Definition itemLayout `{RuntimeArgsCodec} (item : ExecutableDeployItem.t)
  : ByteArray :=
  match item with
  | ExecutableDeployItem.ofModuleBytes i =>
      x00 :: lengthPrefixed (ModuleBytes.moduleBytes i)
          ++ lengthPrefixed (RuntimeArgs_toBytes (ModuleBytes.args i))
  | ExecutableDeployItem.ofStoredContractByHash i =>
      x01 :: StoredContractByHash.hash i
          ++ encodedString (StoredContractByHash.entryPoint i)
          ++ lengthPrefixed (RuntimeArgs_toBytes (StoredContractByHash.args i))
  | ExecutableDeployItem.ofStoredContractByName i =>
      x02 :: encodedString (StoredContractByName.name i)
          ++ encodedString (StoredContractByName.entryPoint i)
          ++ lengthPrefixed (RuntimeArgs_toBytes (StoredContractByName.args i))
  | ExecutableDeployItem.ofStoredVersionedContractByHash i =>
      x03 :: StoredVersionedContractByHash.hash i
          ++ optionalVersion (StoredVersionedContractByHash.version i)
          ++ encodedString (StoredVersionedContractByHash.entryPoint i)
          ++ lengthPrefixed
               (RuntimeArgs_toBytes (StoredVersionedContractByHash.args i))
  | ExecutableDeployItem.ofStoredVersionedContractByName i =>
      x04 :: encodedString (StoredVersionedContractByName.name i)
          ++ optionalVersion (StoredVersionedContractByName.version i)
          ++ encodedString (StoredVersionedContractByName.entryPoint i)
          ++ lengthPrefixed
               (RuntimeArgs_toBytes (StoredVersionedContractByName.args i))
  | ExecutableDeployItem.ofTransfer i =>
      x05 :: lengthPrefixed (RuntimeArgs_toBytes (Transfer.args i))
  end.

(** ** The id of a transfer, in the words of the specification *)

(** The explicit "none" optional of type u64. *)
Definition noneU64 : CLValue :=
  CLValue_fromOption (Option.mk None (Some CLType_u64)).

(** The present optional of type u64 that holds [n]. *)
Definition someU64 (n : Z) : CLValue :=
  CLValue_fromOption (Option.mk (Some (new_U64 n)) (Some CLType_u64)).

(** The deploy [d] with [extra] approvals after its own. *)
Definition withApprovals (d : Deploy.t) (extra : list Approval.t) : Deploy.t :=
  Deploy.new (Deploy.hash d) (Deploy.header d) (Deploy.payment d)
    (Deploy.session d) (Deploy.approvals d ++ extra).

(** The width asked for is the width written. *)
Fixpoint toBytesLE_width (width : nat) (n : Z)
  : length (toBytesLE width n) = width :=
  match width with
  | O => eq_refl
  | S w => f_equal S (toBytesLE_width w (n / 256))
  end.

(** ** Standard payment *)

(** [standardPayment(paymentAmount)]: no module bytes, and the amount as the
    only argument. *)
Definition standardPayment (paymentAmount : Z) : ModuleBytes.t :=
  let paymentArgs :=
    RuntimeArgs.fromMap [("amount"%string, CLValue_u512 paymentAmount)] in
  ModuleBytes.new [] paymentArgs.

(** ** Storage: the helpers that do not touch the database *)

Module Storage.

(** The numbers a version part can denote, as far as they are compared
    here: an integer, or [NaN].  Fractions and infinities are outside the
    model. *)
Inductive number : Type :=
| Num (z : Z)
| NaN.

(** [Number(s)], the built-in conversion of a string. *)
Class NumberBuiltin : Type := Number : string -> number.

(** [s.split(sep)] for a separator of one character: the pieces between the
    separators, an empty string giving one empty piece. *)
Fixpoint split (sep : ascii) (s : string) : list string :=
  match s with
  | EmptyString => [EmptyString]
  | String c rest =>
      if Ascii.eqb c sep then EmptyString :: split sep rest
      else
        match split sep rest with
        | [] => [String c EmptyString]
        | piece :: pieces => String c piece :: pieces
        end
  end.

(** [a > b] on array elements; an element that is missing is [undefined],
    which compares as [NaN]: the answer is false. *)
Definition gt (a b : option number) : bool :=
  match a, b with
  | Some (Num x), Some (Num y) => y <? x
  | _, _ => false
  end.

(** [a === b] on array elements: [undefined] equals [undefined], [NaN]
    equals nothing. *)
Definition strictEq (a b : option number) : bool :=
  match a, b with
  | Some (Num x), Some (Num y) => x =? y
  | None, None => true
  | _, _ => false
  end.

Definition isVersionGreaterOrEqual `{NumberBuiltin} (v1 v2 : string) : bool :=
  let v1Parts := map Number (split "." v1) in
  let v2Parts := map Number (split "." v2) in
  gt (nth_error v1Parts 0) (nth_error v2Parts 0)
  || (strictEq (nth_error v1Parts 0) (nth_error v2Parts 0)
      && gt (nth_error v1Parts 1) (nth_error v2Parts 1))
  || (strictEq (nth_error v1Parts 0) (nth_error v2Parts 0)
      && strictEq (nth_error v1Parts 1) (nth_error v2Parts 1)
      && gt (nth_error v1Parts 2) (nth_error v2Parts 2))
  || (strictEq (nth_error v1Parts 0) (nth_error v2Parts 0)
      && strictEq (nth_error v1Parts 1) (nth_error v2Parts 1)
      && strictEq (nth_error v1Parts 2) (nth_error v2Parts 2)).

(** [buildWhere(criteria, availableCriteriaFields)]: the object [criteria]
    is a map from its keys to their values; the loop visits every key once
    and copies the listed ones. *)
Definition buildWhere {V : Type} (criteria : gmap string V)
    (availableCriteriaFields : list string) : gmap string V :=
  map_fold
    (fun criterion value where_ =>
       if bool_decide (criterion ∈ availableCriteriaFields)
       then <[criterion := value]> where_
       else where_)
    ∅ criteria.

(** A string, [null] or [undefined] used as a condition: only a non-empty
    string is truthy. *)
Definition truthy (s : option string) : bool :=
  match s with
  | Some EmptyString => false
  | Some _ => true
  | None => false
  end.

(** [buildOrder(orderBy, orderDirection, availableOrderFields,
    defaultOrder)]; an order is a list of pairs of a field and a
    direction. *)
Definition buildOrder (orderBy orderDirection : option string)
    (availableOrderFields : list string)
    (defaultOrder : list (string * string)) : list (string * string) :=
  match orderBy with
  | Some field =>
      if truthy orderBy && bool_decide (field ∈ availableOrderFields)
      then [(field,
             match orderDirection with
             | Some direction =>
                 if truthy orderDirection then direction else "DESC"%string
             | None => "DESC"%string
             end)]
      else defaultOrder
  | None => defaultOrder
  end.

End Storage.

(** ** Stand-ins for the external collaborators

    Concrete instances on which the statements below can be run.  They are
    not the SDK's algorithms: the digest reads its input as a little-endian
    number and writes it back at the width asked for, a key renders through
    [encodeBase16], a signature is the private key followed by the message,
    and an argument map encodes as the count of its entries. *)

Definition demoBlake : Blake := {|
  blake2b := fun input _ outlen => toBytesLE outlen (fromBytesLE input);
  blake2b_length := fun input _ outlen => toBytesLE_width outlen (fromBytesLE input)
|}.

Definition algorithmTag (alg : SignatureAlgorithm) : byte :=
  match alg with Ed25519 => x01 | Secp256K1 => x02 end.

Definition demoKeys : KeyLibrary := {|
  PublicKey_toBytes := fun pk =>
    algorithmTag (PublicKey_signatureAlgorithm pk) :: rawPublicKey pk;
  PublicKey_toAccountHash := fun pk => rawPublicKey pk;
  PublicKey_toAccountHex := fun pk =>
    encodeBase16 (algorithmTag (PublicKey_signatureAlgorithm pk) :: rawPublicKey pk);
  AsymmetricKey_sign := fun k msg => privateKey k ++ msg;
  AsymmetricKey_accountHex := fun k =>
    encodeBase16 (algorithmTag (signatureAlgorithm k) :: rawPublicKey (publicKey k));
  Ed25519_accountHex := fun sig => encodeBase16 (x01 :: sig);
  Secp256K1_accountHex := fun sig => encodeBase16 (x02 :: sig)
|}.

Definition demoCodec : RuntimeArgsCodec :=
  fun args => toBytesU32 (Z.of_nat (length (RuntimeArgs.args args))).

Definition demoKey : PublicKey := mkPublicKey [x0a; x0b] Ed25519.

Definition demoArgs : RuntimeArgs.t :=
  RuntimeArgs.fromMap [("amount"%string, CLValue_u512 2500000000)].

(** A standard payment: no module bytes, an amount. *)
Definition demoPayment : ExecutableDeployItemJsonWrapper.t :=
  ExecutableDeployItemJsonWrapper.newModuleBytes [] demoArgs.

Definition demoSession : ExecutableDeployItemJsonWrapper.t :=
  ExecutableDeployItemJsonWrapper.newStoredContractByName
    "counter" "increment" (RuntimeArgs.fromMap []).

(** A malformed union: the slots of a module and of a transfer both
    populated. *)
Definition twoSlots : ExecutableDeployItemJsonWrapper.t :=
  ExecutableDeployItemJsonWrapper.mk
    (Some (ModuleBytes.new [] demoArgs)) None None None None
    (Some (Transfer.mk demoArgs)).

Definition demoParams : DeployParams.t :=
  DeployParams.new demoKey "casper-test" None None None (Some 1600000000000) 0.

Definition demoSigner : AsymmetricKey :=
  mkAsymmetricKey demoKey [x07] Ed25519.

Definition demoCalls : list SigningCall :=
  [Call_signDeploy demoSigner;
   Call_setSignature [x09; x09] (mkPublicKey [x0c] Secp256K1)].

Definition demoDeploy : Deploy.t :=
  Deploy.new [x11] (DeployHeader.new demoKey 1 2 3 [x22] [] "casper-test")
    demoPayment demoSession [].

(** A stand-in for [Number]: a string of decimal digits is its value, the
    empty string is 0, anything else is [NaN]. *)
Definition digitValue (c : ascii) : option Z :=
  let n := Z.of_N (N_of_ascii c) in
  if (48 <=? n) && (n <=? 57) then Some (n - 48) else None.

Fixpoint digitsValue (acc : Z) (s : string) : option Z :=
  match s with
  | EmptyString => Some acc
  | String c rest =>
      match digitValue c with
      | Some d => digitsValue (10 * acc + d) rest
      | None => None
      end
  end.

Definition demoNumber : Storage.NumberBuiltin :=
  fun s =>
    match digitsValue 0 s with
    | Some z => Storage.Num z
    | None => Storage.NaN
    end.

(** The version [v] starts with three parts that denote the integers
    [a0], [a1] and [a2]; further parts may follow. *)
Definition threeParts `{Storage.NumberBuiltin} (v : string) (a0 a1 a2 : Z)
  : Prop :=
  firstn 3 (map Storage.Number (Storage.split "." v))
  = [Storage.Num a0; Storage.Num a1; Storage.Num a2].

(** The order of triples, the first component weighing most. *)
Definition tripleGe (a0 a1 a2 b0 b1 b2 : Z) : Prop :=
  b0 < a0 \/ (a0 = b0 /\ (b1 < a1 \/ (a1 = b1 /\ b2 <= a2))).

(** * Properties *)

(** ** Bytes and little-endian integers *)

Lemma Z_of_byte_of_Z (z : Z) : Z_of_byte (byte_of_Z z) = z mod 256.
Proof.
  unfold Z_of_byte, byte_of_Z.
  assert (Hr : 0 <= z mod 256 < 256) by (apply Z.mod_pos_bound; lia).
  destruct (Byte.of_N (Z.to_N (z mod 256))) as [b|] eqn:E.
  - apply Byte.to_of_N in E. rewrite E. lia.
  - apply Byte.of_N_None_iff in E. lia.
Qed.

Lemma Z_of_byte_range (b : byte) : 0 <= Z_of_byte b < 256.
Proof.
  unfold Z_of_byte. pose proof (Byte.to_N_bounded b). lia.
Qed.

Lemma byte_of_Z_of_byte (b : byte) : byte_of_Z (Z_of_byte b) = b.
Proof.
  unfold byte_of_Z. pose proof (Z_of_byte_range b) as Hr.
  rewrite Z.mod_small by lia. unfold Z_of_byte.
  rewrite N2Z.id, Byte.of_to_N. reflexivity.
Qed.

Lemma toBytesLE_length (width : nat) (n : Z) :
  length (toBytesLE width n) = width.
Proof. apply toBytesLE_width. Qed.

(** The bytes written are the base-256 digits of the value, least
    significant first: read back, they give the value modulo [256^width]. *)
Lemma fromBytesLE_toBytesLE (width : nat) (n : Z) :
  fromBytesLE (toBytesLE width n) = n mod 256 ^ Z.of_nat width.
Proof.
  revert n. induction width as [|w IH]; intros n.
  - simpl. now rewrite Z.mod_1_r.
  - cbn [toBytesLE fromBytesLE]. rewrite Z_of_byte_of_Z, IH.
    rewrite Nat2Z.inj_succ, Z.pow_succ_r by lia.
    rewrite (Z.rem_mul_r n 256 (256 ^ Z.of_nat w)) by lia.
    reflexivity.
Qed.

Lemma toBytesU64_roundtrip (n : Z) :
  0 <= n < 2 ^ 64 -> fromBytesLE (toBytesU64 n) = n.
Proof.
  intros Hn. unfold toBytesU64. rewrite fromBytesLE_toBytesLE.
  apply Z.mod_small. change (256 ^ Z.of_nat 8) with (2 ^ 64). lia.
Qed.

Lemma toBytesU32_roundtrip (n : Z) :
  0 <= n < 2 ^ 32 -> fromBytesLE (toBytesU32 n) = n.
Proof.
  intros Hn. unfold toBytesU32. rewrite fromBytesLE_toBytesLE.
  apply Z.mod_small. change (256 ^ Z.of_nat 4) with (2 ^ 32). lia.
Qed.

Lemma toBytesArrayU8_lengthPrefixed (arr : ByteArray) :
  toBytesArrayU8 arr = lengthPrefixed arr.
Proof.
  unfold toBytesArrayU8, lengthPrefixed, toBytesU32. simpl.
  now rewrite app_nil_r.
Qed.

Lemma toBytesString_encodedString (s : string) :
  toBytesString s = encodedString s.
Proof. apply toBytesArrayU8_lengthPrefixed. Qed.

Lemma concat_DeployHash (deps : list ByteArray) :
  List.concat (map to_bytes (map new_DeployHash deps)) = List.concat deps.
Proof.
  induction deps as [|d rest IH]; simpl; [reflexivity|].
  now rewrite IH.
Qed.

(** ** Base-16 rendering *)

Lemma decode_encode_byte (b : byte) :
  byte_of_Z
    (Z.of_N (16 * hexIndex hexDigits (hexDigit (Byte.to_N b / 16))
             + hexIndex hexDigits (hexDigit (Byte.to_N b mod 16)))) = b.
Proof. destruct b; vm_compute; reflexivity. Qed.

Lemma decodeBase16_encodeBase16 (bytes : ByteArray) :
  decodeBase16 (encodeBase16 bytes) = bytes.
Proof.
  induction bytes as [|b rest IH]; [reflexivity|].
  cbn [encodeBase16 decodeBase16]. now rewrite decode_encode_byte, IH.
Qed.

Lemma encodeBase16_inj (a b : ByteArray) :
  encodeBase16 a = encodeBase16 b -> a = b.
Proof.
  intros E. rewrite <- (decodeBase16_encodeBase16 a), E.
  apply decodeBase16_encodeBase16.
Qed.

Lemma encodeBase16_eqb (a b : ByteArray) :
  String.eqb (encodeBase16 a) (encodeBase16 b) = true <-> a = b.
Proof.
  rewrite String.eqb_eq. split; [apply encodeBase16_inj | now intros ->].
Qed.

(** ** The optional-value encoder *)

Lemma serializedVersion_Ok (version : option Z) :
  exists o, serializedVersion version = Ok o
            /\ Option.toBytes o = optionalVersion version.
Proof.
  destruct version as [v|]; simpl; eexists; split; reflexivity.
Qed.

(** C7: an [Option] whose value is absent encodes as the single byte [00];
    one that holds [v] encodes as the byte [01] followed at once by the
    encoding of [v]; the same holds for the options the constructor builds;
    and constructing an absent option without a type descriptor throws. *)
Theorem Option_toBytes_spec {T : Type} `{ToBytes T} `{CLTyped T} :
  (forall innerType : option CLType,
      Option.toBytes (Option.mk (@None T) innerType) = [x00])
  /\ (forall (v : T) (innerType : option CLType),
         Option.toBytes (Option.mk (Some v) innerType) = x01 :: to_bytes v)
  /\ (forall ty : CLType,
         exists o, Option.new (@None T) (Some ty) = Ok o
                   /\ Option.isNone o = true
                   /\ Option.toBytes o = [x00])
  /\ (forall (v : T) (innerType : option CLType),
         exists o, Option.new (Some v) innerType = Ok o
                   /\ Option.isSome o = true
                   /\ Option.toBytes o = x01 :: to_bytes v)
  /\ Option.new (@None T) None = Throw "You had to assign innerType for None".
Proof.
  repeat split.
  - intros v innerType. unfold Option.toBytes. simpl. now rewrite app_nil_r.
  - intros ty. eexists. repeat split.
  - intros v innerType. eexists. split; [reflexivity|]. split; [reflexivity|].
    unfold Option.toBytes. simpl. now rewrite app_nil_r.
Qed.

(** ** The header *)

(** C2: the header encodes as the account key's own encoding, then
    timestamp, ttl and gas price, each as eight little-endian bytes, then
    the body hash raw, then the dependencies as a four-byte little-endian
    count followed by every hash raw in list order, then the chain name as a
    four-byte little-endian length followed by its UTF-8 bytes. *)
Theorem DeployHeader_toBytes_layout `{KeyLibrary} (h : DeployHeader.t) :
  DeployHeader.toBytes h =
    PublicKey_toBytes (DeployHeader.account h)
    ++ toBytesLE 8 (DeployHeader.timestamp h)
    ++ toBytesLE 8 (DeployHeader.ttl h)
    ++ toBytesLE 8 (DeployHeader.gasPrice h)
    ++ DeployHeader.bodyHash h
    ++ (toBytesLE 4 (Z.of_nat (length (DeployHeader.dependencies h)))
        ++ List.concat (DeployHeader.dependencies h))
    ++ (toBytesLE 4 (Z.of_nat (length (utf8 (DeployHeader.chainName h))))
        ++ utf8 (DeployHeader.chainName h)).
Proof.
  unfold DeployHeader.toBytes, toBytesVecT.
  rewrite toBytesString_encodedString.
  cbn [List.concat]. rewrite concat_DeployHash, length_map, app_nil_r.
  reflexivity.
Qed.

(** ** The execution items *)

Lemma item_toBytes_Ok `{RuntimeArgsCodec} (item : ExecutableDeployItem.t) :
  ExecutableDeployItem.toBytes item = Ok (itemLayout item).
Proof.
  destruct item as [i|i|i|i|i|i]; cbn [ExecutableDeployItem.toBytes itemLayout].
  - unfold ModuleBytes.toBytes.
    rewrite !toBytesArrayU8_lengthPrefixed. simpl. now rewrite app_nil_r.
  - unfold StoredContractByHash.toBytes.
    rewrite toBytesString_encodedString, toBytesArrayU8_lengthPrefixed.
    simpl. now rewrite app_nil_r.
  - unfold StoredContractByName.toBytes.
    rewrite !toBytesString_encodedString, toBytesArrayU8_lengthPrefixed.
    simpl. now rewrite app_nil_r.
  - unfold StoredVersionedContractByHash.toBytes.
    destruct (serializedVersion_Ok (StoredVersionedContractByHash.version i))
      as (o & -> & Ho).
    rewrite toBytesString_encodedString, toBytesArrayU8_lengthPrefixed.
    simpl. now rewrite Ho, app_nil_r.
  - unfold StoredVersionedContractByName.toBytes.
    destruct (serializedVersion_Ok (StoredVersionedContractByName.version i))
      as (o & -> & Ho).
    rewrite !toBytesString_encodedString, toBytesArrayU8_lengthPrefixed.
    simpl. now rewrite Ho, app_nil_r.
  - unfold Transfer.toBytes.
    rewrite toBytesArrayU8_lengthPrefixed. simpl. now rewrite app_nil_r.
Qed.

Lemma item_toBytes_succeeds `{RuntimeArgsCodec} (item : ExecutableDeployItem.t) :
  succeeds (ExecutableDeployItem.toBytes item) = true.
Proof. now rewrite item_toBytes_Ok. Qed.

(** C3: every execution item encodes as its discriminant byte (0 to 5 in
    the order ModuleBytes, StoredContractByHash, StoredContractByName,
    StoredVersionedContractByHash, StoredVersionedContractByName, Transfer)
    followed by the fields of its row of the table, in that order; the
    discriminant byte is the item's [tag]. *)
Theorem ExecutableDeployItem_toBytes_layout `{RuntimeArgsCodec}
    (item : ExecutableDeployItem.t) :
  ExecutableDeployItem.toBytes item = Ok (itemLayout item)
  /\ hd_error (itemLayout item) = Some (byte_of_Z (ExecutableDeployItem.tag item)).
Proof.
  split; [apply item_toBytes_Ok | destruct item; reflexivity].
Qed.

(** ** The tagged-union wrapper *)

(** C4, as the claim has it, fails: a wrapper with two populated slots does
    encode, to the bytes of the first populated slot in dispatch order. *)
Lemma wrapper_two_slots_encode :
  length (ExecutableDeployItemJsonWrapper.populated twoSlots) = 2%nat
  /\ @ExecutableDeployItemJsonWrapper.toBytes demoCodec twoSlots
     = Ok [x00; x00; x00; x00; x00; x04; x00; x00; x00; x01; x00; x00; x00]
  /\ @ExecutableDeployItemJsonWrapper.toBytes demoCodec twoSlots
     = Ok (@ModuleBytes.toBytes demoCodec (ModuleBytes.new [] demoArgs)).
Proof. repeat split. Qed.

Lemma wrapper_toBytes_first `{RuntimeArgsCodec}
    (w : ExecutableDeployItemJsonWrapper.t) :
  ExecutableDeployItemJsonWrapper.toBytes w =
    match ExecutableDeployItemJsonWrapper.populated w with
    | [] => Throw "failed to serialize ExecutableDeployItemJsonWrapper"
    | item :: _ => ExecutableDeployItem.toBytes item
    end.
Proof.
  destruct w as [[m|] [h|] [n|] [vh|] [vn|] [tr|]]; reflexivity.
Qed.

(** C4, amended: encoding a wrapper throws exactly when no slot is
    populated; otherwise it gives the bytes of the first populated slot in
    the order moduleBytes, storedContractByHash, storedContractByName,
    storedVersionedContractByHash, storedVersionedContractByName, transfer;
    so with exactly one slot populated it gives that variant's own bytes. *)
Theorem wrapper_toBytes_dispatch `{RuntimeArgsCodec}
    (w : ExecutableDeployItemJsonWrapper.t) :
  ExecutableDeployItemJsonWrapper.toBytes w =
    match ExecutableDeployItemJsonWrapper.populated w with
    | [] => Throw "failed to serialize ExecutableDeployItemJsonWrapper"
    | [item] => ExecutableDeployItem.toBytes item
    | item :: _ :: _ => ExecutableDeployItem.toBytes item
    end
  /\ succeeds (ExecutableDeployItemJsonWrapper.toBytes w) =
       negb (Nat.eqb (length (ExecutableDeployItemJsonWrapper.populated w)) 0).
Proof.
  rewrite wrapper_toBytes_first.
  destruct (ExecutableDeployItemJsonWrapper.populated w) as [|item [|other rest]];
    (split; [reflexivity|]); simpl; try reflexivity;
    apply item_toBytes_succeeds.
Qed.

(** C9: [newStoredContractByHash] builds a versioned item: it populates
    the slot storedVersionedContractByHash and leaves storedContractByHash
    empty, so [isStoredContractByHash] answers false and the encoding
    starts with the byte 3. *)
Theorem newStoredContractByHash_is_versioned `{RuntimeArgsCodec}
    (hash : ByteArray) (version : option Z) (entryPoint : string)
    (args : RuntimeArgs.t) :
  let w := ExecutableDeployItemJsonWrapper.newStoredContractByHash
             hash version entryPoint args in
  ExecutableDeployItemJsonWrapper.storedVersionedContractByHash w
    = Some (StoredVersionedContractByHash.new hash version entryPoint args)
  /\ ExecutableDeployItemJsonWrapper.storedContractByHash w = None
  /\ ExecutableDeployItemJsonWrapper.populated w
     = [ExecutableDeployItem.ofStoredVersionedContractByHash
          (StoredVersionedContractByHash.new hash version entryPoint args)]
  /\ ExecutableDeployItemJsonWrapper.isStoredContractByHash w = false
  /\ ExecutableDeployItemJsonWrapper.isStoredVersionContractByHash w = true
  /\ StoredVersionedContractByHash.tag = 3
  /\ ExecutableDeployItemJsonWrapper.toBytes w
     = Ok (x03 :: hash ++ optionalVersion version ++ encodedString entryPoint
               ++ lengthPrefixed (RuntimeArgs_toBytes args))
  /\ (forall rest, ExecutableDeployItemJsonWrapper.toBytes w <> Ok (x01 :: rest)).
Proof.
  intros w.
  assert (Hb : ExecutableDeployItemJsonWrapper.toBytes w
               = Ok (x03 :: hash ++ optionalVersion version
                         ++ encodedString entryPoint
                         ++ lengthPrefixed (RuntimeArgs_toBytes args))).
  { rewrite wrapper_toBytes_first. subst w.
    change (ExecutableDeployItemJsonWrapper.populated
              (ExecutableDeployItemJsonWrapper.newStoredContractByHash
                 hash version entryPoint args))
      with [ExecutableDeployItem.ofStoredVersionedContractByHash
              (StoredVersionedContractByHash.new hash version entryPoint args)].
    cbv iota. now rewrite item_toBytes_Ok. }
  repeat split; try assumption.
  intros rest. rewrite Hb. discriminate.
Qed.

(** ** Deploy assembly *)

(** C1: when both items encode, [makeDeploy] returns a deploy whose body
    hash is the 32-byte blake2b digest of the payment bytes followed by the
    session bytes, whose hash is the 32-byte blake2b digest of the encoded
    header, and whose list of approvals is empty. *)
Theorem makeDeploy_hashes `{Blake} `{KeyLibrary} `{RuntimeArgsCodec}
    (deployParam : DeployParams.t)
    (session payment : ExecutableDeployItemJsonWrapper.t)
    (paymentBytes sessionBytes : ByteArray) :
  ExecutableDeployItemJsonWrapper.toBytes payment = Ok paymentBytes ->
  ExecutableDeployItemJsonWrapper.toBytes session = Ok sessionBytes ->
  exists deploy,
    makeDeploy deployParam session payment = Ok deploy
    /\ DeployHeader.bodyHash (Deploy.header deploy)
       = blake2b (paymentBytes ++ sessionBytes) None 32
    /\ length (DeployHeader.bodyHash (Deploy.header deploy)) = 32%nat
    /\ Deploy.hash deploy
       = blake2b (DeployHeader.toBytes (Deploy.header deploy)) None 32
    /\ length (Deploy.hash deploy) = 32%nat
    /\ Deploy.approvals deploy = []
    /\ Deploy.payment deploy = payment
    /\ Deploy.session deploy = session.
Proof.
  intros Hp Hs. unfold makeDeploy, serializeBody. rewrite Hp, Hs.
  cbn [result_bind List.concat]. rewrite app_nil_r.
  eexists. split; [reflexivity|]. cbn.
  repeat split; apply blake2b_length.
Qed.

(** A standard payment and a stored contract called by name: both encode,
    and the deploy is built. *)
Lemma makeDeploy_hashes_witness :
  exists deploy,
    @makeDeploy demoBlake demoKeys demoCodec demoParams demoSession demoPayment
      = Ok deploy
    /\ Deploy.approvals deploy = []
    /\ length (Deploy.hash deploy) = 32%nat.
Proof.
  destruct (@makeDeploy_hashes demoBlake demoKeys demoCodec demoParams
              demoSession demoPayment
              (@ModuleBytes.toBytes demoCodec (ModuleBytes.new [] demoArgs))
              (@StoredContractByName.toBytes demoCodec
                 (StoredContractByName.new "counter" "increment"
                    (RuntimeArgs.fromMap []))))
    as (deploy & Hm & _ & _ & _ & Hl & Ha & _).
  - reflexivity.
  - reflexivity.
  - exists deploy. repeat split; assumption.
Defined.

(** ** The dependency filter *)

Lemma same_hex_count (d : ByteArray) (l : list ByteArray) :
  length
    (List.filter (fun t => String.eqb (encodeBase16 d) (encodeBase16 t)) l)
  = count_occ ByteArray_eq_dec l d.
Proof.
  induction l as [|a rest IH]; [reflexivity|].
  cbn [List.filter count_occ].
  destruct (ByteArray_eq_dec a d) as [->|Hne].
  - rewrite String.eqb_refl. simpl. now rewrite IH.
  - destruct (String.eqb (encodeBase16 d) (encodeBase16 a)) eqn:E.
    + apply encodeBase16_eqb in E. congruence.
    + exact IH.
Qed.

Lemma count_occ_filter (f : ByteArray -> bool) (l : list ByteArray)
    (d : ByteArray) :
  count_occ ByteArray_eq_dec (List.filter f l) d
  = if f d then count_occ ByteArray_eq_dec l d else 0%nat.
Proof.
  induction l as [|a rest IH]; simpl.
  - now destruct (f d).
  - destruct (ByteArray_eq_dec a d) as [->|Hne].
    + destruct (f d) eqn:E; simpl.
      * destruct (ByteArray_eq_dec d d); [now rewrite IH | congruence].
      * exact IH.
    + destruct (f a); simpl; [|exact IH].
      destruct (ByteArray_eq_dec a d); [congruence | exact IH].
Qed.

(** C5: the constructor stores exactly the input elements whose byte value
    occurs fewer than two times in the input, in input order; a value that
    occurs once is kept once, and a value that occurs twice or more is not
    kept at all. *)
Theorem DeployParams_dependencies_occurringOnce
    (accountPublicKey : PublicKey) (chainName : string)
    (gasPrice ttl : option Z) (dependencies : option (list ByteArray))
    (timestamp : option Z) (now : Z) :
  let input := default [] dependencies in
  let stored :=
    DeployParams.dependencies
      (DeployParams.new accountPublicKey chainName gasPrice ttl dependencies
         timestamp now) in
  stored = occurringOnce input
  /\ (forall d,
        count_occ ByteArray_eq_dec stored d
        = if Nat.eqb (count_occ ByteArray_eq_dec input d) 1 then 1%nat else 0%nat)
  /\ (forall d,
        In d stored
        <-> In d input /\ (count_occ ByteArray_eq_dec input d < 2)%nat).
Proof.
  intros input stored.
  assert (Hs : stored = occurringOnce input).
  { subst stored input. unfold DeployParams.new, occurringOnce.
    cbn [DeployParams.dependencies].
    apply List.filter_ext. intros d. now rewrite same_hex_count. }
  split; [exact Hs|]. rewrite Hs. unfold occurringOnce. split.
  - intros d. rewrite count_occ_filter.
    destruct (count_occ ByteArray_eq_dec input d) as [|[|n]]; reflexivity.
  - intros d. rewrite List.filter_In, Nat.ltb_lt. reflexivity.
Qed.

(** ** Transfers *)

Lemma get_set (key : string) (value : CLValue) (l : list (string * CLValue)) :
  RuntimeArgs.get key (RuntimeArgs.set key value l) = Some value.
Proof.
  induction l as [|[k v] rest IH]; simpl.
  - now rewrite String.eqb_refl.
  - destruct (String.eqb k key) eqn:E; simpl.
    + now rewrite String.eqb_refl.
    + now rewrite E.
Qed.

Lemma Transfer_new_falsy_id `{KeyLibrary} (amount : Z) (target : TransferTarget)
    (sourcePurse : option URef) (id : option Z) (tr : Transfer.t) :
  Transfer.new amount target sourcePurse id = Ok tr ->
  ExecutableDeployItem.getArgByName (ExecutableDeployItem.ofTransfer tr) "id"
  = Some (if falsy id then noneU64 else someU64 (default 0 id)).
Proof.
  unfold Transfer.new, ExecutableDeployItem.getArgByName. intros E.
  destruct target as [u|k|]; cbn [result_bind] in E; [| |discriminate].
  - destruct id as [z|]; cbn [falsy] in *; [destruct (z =? 0)|];
      cbn in E; injection E as <-; cbn [ExecutableDeployItem.args Transfer.args
        RuntimeArgs.insert RuntimeArgs.args]; apply get_set.
  - destruct id as [z|]; cbn [falsy] in *; [destruct (z =? 0)|];
      cbn in E; injection E as <-; cbn [ExecutableDeployItem.args Transfer.args
        RuntimeArgs.insert RuntimeArgs.args]; apply get_set.
Qed.

(** C6: constructing a transfer without a target throws; with only an
    amount and a target (a purse reference or a public key) it succeeds,
    and the argument map then has an entry [id] that is the explicit "none"
    optional, after [amount] and [target]. *)
Theorem Transfer_new_target `{KeyLibrary} :
  (forall amount sourcePurse id,
      Transfer.new amount Target_missing sourcePurse id
      = Throw "Please specify target")
  /\ (forall amount uref,
        exists tr,
          Transfer.new amount (Target_URef uref) None None = Ok tr
          /\ ExecutableDeployItem.getArgByName
               (ExecutableDeployItem.ofTransfer tr) "id" = Some noneU64
          /\ RuntimeArgs.args (Transfer.args tr)
             = [("amount"%string, CLValue_u512 amount);
                ("target"%string, CLValue_uref uref);
                ("id"%string, noneU64)])
  /\ (forall amount key,
        exists tr,
          Transfer.new amount (Target_PublicKey key) None None = Ok tr
          /\ ExecutableDeployItem.getArgByName
               (ExecutableDeployItem.ofTransfer tr) "id" = Some noneU64
          /\ RuntimeArgs.args (Transfer.args tr)
             = [("amount"%string, CLValue_u512 amount);
                ("target"%string, CLValue_byteArray (PublicKey_toAccountHash key));
                ("id"%string, noneU64)]).
Proof.
  split; [|split].
  - intros amount [purse|] id; reflexivity.
  - intros amount uref. eexists. split; [reflexivity|]. split; reflexivity.
  - intros amount key. eexists. split; [reflexivity|]. split; reflexivity.
Qed.

(** C10: a transfer constructed with the id 0 is the transfer constructed
    with no id: its entry [id] is the "none" optional, not the present
    optional that holds 0; and whatever id is given, the present optional
    that holds 0 is never what gets stored. *)
Theorem Transfer_new_id_zero `{KeyLibrary} (amount : Z)
    (target : TransferTarget) (sourcePurse : option URef) (tr : Transfer.t) :
  Transfer.new amount target sourcePurse (Some 0) = Ok tr ->
  Transfer.new amount target sourcePurse None = Ok tr
  /\ ExecutableDeployItem.getArgByName (ExecutableDeployItem.ofTransfer tr) "id"
     = Some noneU64
  /\ ExecutableDeployItem.getArgByName (ExecutableDeployItem.ofTransfer tr) "id"
     <> Some (someU64 0)
  /\ (forall id tr',
        Transfer.new amount target sourcePurse id = Ok tr' ->
        ExecutableDeployItem.getArgByName
          (ExecutableDeployItem.ofTransfer tr') "id" <> Some (someU64 0)).
Proof.
  intros E. split; [exact E|].
  pose proof (Transfer_new_falsy_id _ _ _ _ _ E) as Hid. cbn [falsy] in Hid.
  change (0 =? 0) with true in Hid. cbv iota in Hid.
  split; [exact Hid|]. split; [rewrite Hid; discriminate|].
  intros id tr' E'. rewrite (Transfer_new_falsy_id _ _ _ _ _ E').
  destruct id as [z|]; cbn [falsy default]; [|discriminate].
  destruct (z =? 0) eqn:Ez; [discriminate|].
  intros Heq. injection Heq as Hz. subst z. discriminate.
Qed.

(** A transfer of 100 motes to a public key, with the id 0. *)
Lemma Transfer_new_id_zero_witness :
  exists tr,
    @Transfer.new demoKeys 100 (Target_PublicKey demoKey) None (Some 0) = Ok tr
    /\ ExecutableDeployItem.getArgByName (ExecutableDeployItem.ofTransfer tr) "id"
       = Some noneU64.
Proof.
  eexists. split; [reflexivity|].
  apply (@Transfer_new_id_zero demoKeys 100 (Target_PublicKey demoKey) None).
  reflexivity.
Defined.

(** ** The approval protocol *)

Lemma push_approvals (a : Approval.t) (d : Deploy.t) :
  Deploy.approvals (Deploy.push a d) = Deploy.approvals d ++ [a].
Proof. reflexivity. Qed.

Lemma push_hash (a : Approval.t) (d : Deploy.t) :
  Deploy.hash (Deploy.push a d) = Deploy.hash d.
Proof. reflexivity. Qed.

(** One call pushes one approval on the deploy behind the reference, leaves
    every other deploy alone, and returns the reference it was given. *)
Lemma call_pushes_one `{KeyLibrary} (σ : Store) (deploy : ref) (d : Deploy.t)
    (c : SigningCall) :
  σ !! deploy = Some d ->
  call deploy c σ
  = Some (deploy, <[deploy := Deploy.push (approvalOf (Deploy.hash d) c) d]> σ).
Proof.
  intros Hd.
  destruct c as [k|sig pk]; cbn [call approvalOf].
  - unfold signDeploy, store_bind, load, modify, store_ret.
    rewrite Hd. cbv beta iota. rewrite Hd.
    destruct (signatureAlgorithm k); reflexivity.
  - unfold setSignature, store_bind, modify, store_ret. rewrite Hd.
    destruct (PublicKey_signatureAlgorithm pk); reflexivity.
Qed.

Lemma withApprovals_nil (d : Deploy.t) : withApprovals d [] = d.
Proof. destruct d. unfold withApprovals. simpl. now rewrite app_nil_r. Qed.

Lemma withApprovals_push (d : Deploy.t) (a : Approval.t)
    (extra : list Approval.t) :
  withApprovals (Deploy.push a d) extra = withApprovals d (a :: extra).
Proof.
  unfold withApprovals, Deploy.push. simpl. now rewrite <- app_assoc.
Qed.

Lemma calls_push_all `{KeyLibrary} (cs : list SigningCall) :
  forall (σ : Store) (deploy : ref) (d : Deploy.t),
    σ !! deploy = Some d ->
    calls deploy cs σ
    = Some (repeat deploy (length cs),
            <[deploy := withApprovals d (map (approvalOf (Deploy.hash d)) cs)]> σ).
Proof.
  induction cs as [|c rest IH]; intros σ deploy d Hd.
  - cbn [calls map length repeat]. unfold store_ret.
    rewrite withApprovals_nil, insert_id by exact Hd. reflexivity.
  - cbn [calls]. unfold store_bind at 1.
    rewrite (call_pushes_one σ deploy d c Hd).
    unfold store_bind at 1.
    rewrite (IH _ deploy (Deploy.push (approvalOf (Deploy.hash d) c) d))
      by apply lookup_insert_eq.
    rewrite insert_insert_eq, withApprovals_push, push_hash. reflexivity.
Qed.

(** C8: a sequence of N calls to [signDeploy] and [setSignature] on a
    deploy leaves it with its former approvals followed by one approval per
    call, in the order of the calls: N more than before, so N on a deploy
    that had none, as [makeDeploy] returns it; nothing else of the deploy
    changes, and every call returns the reference it was given. *)
Theorem signing_appends_in_order `{KeyLibrary} (σ : Store) (deploy : ref)
    (d : Deploy.t) (cs : list SigningCall) :
  σ !! deploy = Some d ->
  exists σ' d',
    calls deploy cs σ = Some (repeat deploy (length cs), σ')
    /\ σ' !! deploy = Some d'
    /\ Deploy.approvals d'
       = Deploy.approvals d ++ map (approvalOf (Deploy.hash d)) cs
    /\ length (Deploy.approvals d')
       = (length (Deploy.approvals d) + length cs)%nat
    /\ (Deploy.approvals d = [] ->
        length (Deploy.approvals d') = length cs
        /\ Deploy.approvals d' = map (approvalOf (Deploy.hash d)) cs)
    /\ Deploy.hash d' = Deploy.hash d
    /\ Deploy.header d' = Deploy.header d
    /\ Deploy.payment d' = Deploy.payment d
    /\ Deploy.session d' = Deploy.session d
    /\ dom σ' = dom σ.
Proof.
  intros Hd.
  exists (<[deploy := withApprovals d (map (approvalOf (Deploy.hash d)) cs)]> σ),
         (withApprovals d (map (approvalOf (Deploy.hash d)) cs)).
  split; [now apply calls_push_all|].
  split; [apply lookup_insert_eq|].
  split; [reflexivity|].
  split; [cbn; now rewrite length_app, length_map|].
  split.
  { intros Ea. cbn. rewrite Ea. cbn. now rewrite length_map. }
  repeat (split; [reflexivity|]).
  apply set_eq. intros r. rewrite dom_insert, elem_of_union, elem_of_singleton.
  split; [intros [->|Hr]; [apply elem_of_dom; eauto | exact Hr] | now right].
Qed.

(** Two calls on a deploy that has no approval yet: one [signDeploy], one
    [setSignature]; two approvals, in that order, on the same reference. *)
Lemma signing_appends_in_order_witness :
  exists σ' d',
    @calls demoKeys 0%nat demoCalls {[ 0%nat := demoDeploy ]}
      = Some ([0%nat; 0%nat], σ')
    /\ σ' !! 0%nat = Some d'
    /\ Deploy.approvals d'
       = [Approval.mk "010a0b" "010711"; Approval.mk "020c" "020909"]
    /\ length (Deploy.approvals d') = 2%nat.
Proof.
  destruct (@signing_appends_in_order demoKeys {[ 0%nat := demoDeploy ]}
              0%nat demoDeploy demoCalls)
    as (σ' & d' & Hc & Hl & Ha & _ & Hn & _).
  - apply lookup_singleton_eq.
  - exists σ', d'. split; [exact Hc|]. split; [exact Hl|].
    split; [rewrite Ha; reflexivity|].
    apply Hn. reflexivity.
Defined.

(** ** Worked examples *)

Example toBytesU64_timestamp :
  toBytesU64 1600000000000 = [x00; x80; x6e; x87; x74; x01; x00; x00].
Proof. reflexivity. Qed.

Example toBytesU32_258 : toBytesU32 258 = [x02; x01; x00; x00].
Proof. reflexivity. Qed.

Example toBytesString_abc :
  toBytesString "abc" = [x03; x00; x00; x00; x61; x62; x63].
Proof. reflexivity. Qed.

Example encodeBase16_sample : encodeBase16 [x0a; xff; x00] = "0aff00"%string.
Proof. reflexivity. Qed.

(** A standard payment: the tag, an empty module (a zero count and no
    bytes), then the argument bytes behind their count. *)
Example standard_payment_bytes `{RuntimeArgsCodec} (args : RuntimeArgs.t) :
  ModuleBytes.toBytes (ModuleBytes.new [] args)
  = [x00; x00; x00; x00; x00] ++ lengthPrefixed (RuntimeArgs_toBytes args).
Proof.
  unfold ModuleBytes.toBytes. rewrite !toBytesArrayU8_lengthPrefixed.
  simpl. now rewrite app_nil_r.
Qed.

Example header_bytes :
  @DeployHeader.toBytes demoKeys
    (DeployHeader.new demoKey 1 2 3 [x22; x23] [[x31]; [x32]] "ab")
  = [x01; x0a; x0b;
     x01; x00; x00; x00; x00; x00; x00; x00;
     x02; x00; x00; x00; x00; x00; x00; x00;
     x03; x00; x00; x00; x00; x00; x00; x00;
     x22; x23;
     x02; x00; x00; x00; x31; x32;
     x02; x00; x00; x00; x61; x62].
Proof. reflexivity. Qed.

(** Both copies of a repeated dependency go; the others stay in order. *)
Example dependencies_drop_both :
  DeployParams.dependencies
    (DeployParams.new demoKey "casper-test" None None
       (Some [[x01]; [x02]; [x01]; [x03]]) None 7)
  = [[x02]; [x03]].
Proof. reflexivity. Qed.

Example timestamp_defaults_to_now :
  DeployParams.timestamp
    (DeployParams.new demoKey "casper-test" None None None None 7) = 7
  /\ DeployParams.timestamp
       (DeployParams.new demoKey "casper-test" None None None (Some 0) 7) = 7
  /\ DeployParams.timestamp
       (DeployParams.new demoKey "casper-test" None None None (Some 5) 7) = 5.
Proof. repeat split. Qed.

Example transfer_with_id :
  @Transfer.new demoKeys 100 (Target_PublicKey demoKey) None (Some 5)
  = Ok (Transfer.mk
          (RuntimeArgs.mk
             [("amount"%string, CLValue_u512 100);
              ("target"%string, CLValue_byteArray [x0a; x0b]);
              ("id"%string, someU64 5)])).
Proof. reflexivity. Qed.

Example empty_wrapper_throws :
  @ExecutableDeployItemJsonWrapper.toBytes demoCodec
    ExecutableDeployItemJsonWrapper.empty
  = Throw "failed to serialize ExecutableDeployItemJsonWrapper".
Proof. reflexivity. Qed.

(** * Further properties *)

(** ** Wrapping an item *)

(** X1: [fromExecutionDeployItem] populates exactly the slot of the item's
    variant, and the wrapper encodes to the item's own bytes. *)
Theorem fromExecutionDeployItem_one_slot `{RuntimeArgsCodec}
    (item : ExecutableDeployItem.t) :
  let w := ExecutableDeployItemJsonWrapper.fromExecutionDeployItem item in
  ExecutableDeployItemJsonWrapper.populated w = [item]
  /\ ExecutableDeployItemJsonWrapper.toBytes w
     = ExecutableDeployItem.toBytes item
  /\ ExecutableDeployItemJsonWrapper.isModuleBytes w
     = (ExecutableDeployItem.tag item =? 0)
  /\ ExecutableDeployItemJsonWrapper.isStoredContractByHash w
     = (ExecutableDeployItem.tag item =? 1)
  /\ ExecutableDeployItemJsonWrapper.isStoredContractByName w
     = (ExecutableDeployItem.tag item =? 2)
  /\ ExecutableDeployItemJsonWrapper.isStoredVersionContractByHash w
     = (ExecutableDeployItem.tag item =? 3)
  /\ ExecutableDeployItemJsonWrapper.isStoredVersionContractByName w
     = (ExecutableDeployItem.tag item =? 4)
  /\ ExecutableDeployItemJsonWrapper.isTransfer w
     = (ExecutableDeployItem.tag item =? 5).
Proof.
  intros w. subst w. split; [destruct item; reflexivity|].
  split; [|destruct item; repeat split].
  rewrite wrapper_toBytes_first. destruct item; reflexivity.
Qed.

Lemma itemLayout_head `{RuntimeArgsCodec} (item : ExecutableDeployItem.t) :
  hd_error (itemLayout item)
  = Some (byte_of_Z (ExecutableDeployItem.tag item)).
Proof. destruct item; reflexivity. Qed.

(** X2: two items of different variants never encode to the same bytes,
    whatever their fields, and neither do their wrappers. *)
Theorem distinct_variants_encode_apart `{RuntimeArgsCodec}
    (item1 item2 : ExecutableDeployItem.t) :
  ExecutableDeployItem.tag item1 <> ExecutableDeployItem.tag item2 ->
  ExecutableDeployItem.toBytes item1 <> ExecutableDeployItem.toBytes item2
  /\ ExecutableDeployItemJsonWrapper.toBytes
       (ExecutableDeployItemJsonWrapper.fromExecutionDeployItem item1)
     <> ExecutableDeployItemJsonWrapper.toBytes
          (ExecutableDeployItemJsonWrapper.fromExecutionDeployItem item2).
Proof.
  intros Htag.
  assert (Hne : ExecutableDeployItem.toBytes item1
                <> ExecutableDeployItem.toBytes item2).
  { rewrite !item_toBytes_Ok. intros E. injection E as E.
    apply (f_equal (@hd_error byte)) in E. rewrite !itemLayout_head in E.
    destruct item1, item2; solve [now elim Htag | discriminate E]. }
  split; [exact Hne|].
  rewrite !wrapper_toBytes_first.
  replace (ExecutableDeployItemJsonWrapper.populated
             (ExecutableDeployItemJsonWrapper.fromExecutionDeployItem item1))
    with [item1] by (destruct item1; reflexivity).
  replace (ExecutableDeployItemJsonWrapper.populated
             (ExecutableDeployItemJsonWrapper.fromExecutionDeployItem item2))
    with [item2] by (destruct item2; reflexivity).
  exact Hne.
Qed.

(** A transfer and a standard payment with the same arguments. *)
Lemma distinct_variants_encode_apart_witness :
  @ExecutableDeployItem.toBytes demoCodec
    (ExecutableDeployItem.ofTransfer (Transfer.mk demoArgs))
  <> @ExecutableDeployItem.toBytes demoCodec
       (ExecutableDeployItem.ofModuleBytes (ModuleBytes.new [] demoArgs))
  /\ ExecutableDeployItem.tag
       (ExecutableDeployItem.ofTransfer (Transfer.mk demoArgs)) = 5.
Proof.
  split; [|reflexivity].
  apply (@distinct_variants_encode_apart demoCodec
           (ExecutableDeployItem.ofTransfer (Transfer.mk demoArgs))
           (ExecutableDeployItem.ofModuleBytes (ModuleBytes.new [] demoArgs))).
  discriminate.
Defined.

(** X3: [makeDeploy] throws the wrapper's encoding error when the payment
    or the session has no populated slot, and succeeds in every other
    case. *)
Theorem makeDeploy_throws_iff_empty_item `{Blake} `{KeyLibrary}
    `{RuntimeArgsCodec} (deployParam : DeployParams.t)
    (session payment : ExecutableDeployItemJsonWrapper.t) :
  match ExecutableDeployItemJsonWrapper.populated payment,
        ExecutableDeployItemJsonWrapper.populated session with
  | _ :: _, _ :: _ => succeeds (makeDeploy deployParam session payment) = true
  | _, _ =>
      makeDeploy deployParam session payment
      = Throw "failed to serialize ExecutableDeployItemJsonWrapper"
  end.
Proof.
  unfold makeDeploy, serializeBody. rewrite !wrapper_toBytes_first.
  destruct (ExecutableDeployItemJsonWrapper.populated payment) as [|p ps];
    [reflexivity|].
  rewrite item_toBytes_Ok. cbn [result_bind].
  destruct (ExecutableDeployItemJsonWrapper.populated session) as [|q qs];
    [reflexivity|].
  rewrite item_toBytes_Ok. reflexivity.
Qed.

(** ** Parameters of a deploy *)

Lemma DeployParams_new_dependencies
    (accountPublicKey : PublicKey) (chainName : string)
    (gasPrice ttl : option Z) (dependencies : option (list ByteArray))
    (timestamp : option Z) (now : Z) :
  DeployParams.dependencies
    (DeployParams.new accountPublicKey chainName gasPrice ttl dependencies
       timestamp now)
  = occurringOnce (default [] dependencies).
Proof.
  unfold DeployParams.new, occurringOnce. cbn [DeployParams.dependencies].
  apply List.filter_ext. intros d. now rewrite same_hex_count.
Qed.

Lemma filter_all {A} (f : A -> bool) (l : list A) :
  (forall x, In x l -> f x = true) -> List.filter f l = l.
Proof.
  induction l as [|a rest IH]; intros Hall; [reflexivity|].
  simpl. rewrite (Hall a) by now left.
  f_equal. apply IH. intros x Hx. apply Hall. now right.
Qed.

Lemma occurringOnce_NoDup (deps : list ByteArray) :
  List.NoDup deps -> occurringOnce deps = deps.
Proof.
  intros Hnd. apply filter_all. intros d Hd. apply Nat.ltb_lt.
  apply (proj1 (NoDup_count_occ ByteArray_eq_dec deps)) with (x := d) in Hnd.
  lia.
Qed.

Lemma NoDup_occurringOnce (deps : list ByteArray) :
  List.NoDup (occurringOnce deps).
Proof.
  apply (NoDup_count_occ ByteArray_eq_dec). intros d.
  unfold occurringOnce. rewrite count_occ_filter.
  destruct (Nat.ltb (count_occ ByteArray_eq_dec deps d) 2) eqn:E; [|lia].
  apply Nat.ltb_lt in E. lia.
Qed.

(** X4: the dependencies a [DeployParams] holds never contain the same
    hash twice, each of them comes from the input, and constructing again
    from the stored list changes nothing. *)
Theorem DeployParams_dependencies_NoDup
    (accountPublicKey : PublicKey) (chainName : string)
    (gasPrice ttl : option Z) (dependencies : option (list ByteArray))
    (timestamp : option Z) (now : Z) :
  let stored :=
    DeployParams.dependencies
      (DeployParams.new accountPublicKey chainName gasPrice ttl dependencies
         timestamp now) in
  List.NoDup stored
  /\ incl stored (default [] dependencies)
  /\ DeployParams.dependencies
       (DeployParams.new accountPublicKey chainName gasPrice ttl (Some stored)
          timestamp now)
     = stored.
Proof.
  intros stored. subst stored. rewrite !DeployParams_new_dependencies.
  split; [apply NoDup_occurringOnce|]. split.
  - apply List.incl_filter.
  - cbn [default]. apply occurringOnce_NoDup, NoDup_occurringOnce.
Qed.

(** X5: a list of dependencies without repetition is stored as it is. *)
Theorem DeployParams_dependencies_kept
    (accountPublicKey : PublicKey) (chainName : string)
    (gasPrice ttl : option Z) (dependencies : list ByteArray)
    (timestamp : option Z) (now : Z) :
  List.NoDup dependencies ->
  DeployParams.dependencies
    (DeployParams.new accountPublicKey chainName gasPrice ttl
       (Some dependencies) timestamp now)
  = dependencies.
Proof.
  intros Hnd. rewrite DeployParams_new_dependencies.
  now apply occurringOnce_NoDup.
Qed.

Lemma DeployParams_dependencies_kept_witness :
  DeployParams.dependencies
    (DeployParams.new demoKey "casper-test" None None
       (Some [[x01]; [x02]; [x03]]) None 7)
  = [[x01]; [x02]; [x03]].
Proof.
  apply (DeployParams_dependencies_kept demoKey "casper-test" None None
           [[x01]; [x02]; [x03]] None 7).
  repeat constructor; simpl; intuition discriminate.
Defined.

(** ** Constructing an optional value *)


(** ** Arguments of a transfer *)




(** ** Kinds of deploy *)

(** X7: a deploy made with a [ModuleBytes] payment is a standard payment
    exactly when the module is empty; so one made with [standardPayment] is,
    and its payment carries the amount under [amount]. *)
Theorem makeDeploy_isStandardPayment `{Blake} `{KeyLibrary}
    `{RuntimeArgsCodec} (deployParam : DeployParams.t)
    (session : ExecutableDeployItemJsonWrapper.t) (sessionBytes : ByteArray)
    (moduleBytes : ByteArray) (args : RuntimeArgs.t) (paymentAmount : Z) :
  ExecutableDeployItemJsonWrapper.toBytes session = Ok sessionBytes ->
  (exists deploy,
      makeDeploy deployParam session
        (ExecutableDeployItemJsonWrapper.newModuleBytes moduleBytes args)
      = Ok deploy
      /\ Deploy.isStandardPayment deploy = Nat.eqb (length moduleBytes) 0)
  /\ (exists deploy,
        makeDeploy deployParam session
          (ExecutableDeployItemJsonWrapper.fromExecutionDeployItem
             (ExecutableDeployItem.ofModuleBytes
                (standardPayment paymentAmount)))
        = Ok deploy
        /\ Deploy.isStandardPayment deploy = true
        /\ ExecutableDeployItem.getArgByName
             (ExecutableDeployItem.ofModuleBytes
                (standardPayment paymentAmount)) "amount"
           = Some (CLValue_u512 paymentAmount)).
Proof.
  intros Hs. split.
  - unfold makeDeploy, serializeBody. rewrite Hs, wrapper_toBytes_first.
    cbn [ExecutableDeployItemJsonWrapper.newModuleBytes].
    replace (ExecutableDeployItemJsonWrapper.populated _)
      with [ExecutableDeployItem.ofModuleBytes
              (ModuleBytes.new moduleBytes args)] by reflexivity.
    rewrite item_toBytes_Ok. cbn [result_bind].
    eexists. split; reflexivity.
  - unfold makeDeploy, serializeBody. rewrite Hs, wrapper_toBytes_first.
    replace (ExecutableDeployItemJsonWrapper.populated _)
      with [ExecutableDeployItem.ofModuleBytes (standardPayment paymentAmount)]
      by reflexivity.
    rewrite item_toBytes_Ok. cbn [result_bind].
    eexists. repeat split.
Qed.

(** The stored contract called by name, paid for with 2500000000 motes. *)
Lemma makeDeploy_isStandardPayment_witness :
  exists deploy,
    @makeDeploy demoBlake demoKeys demoCodec demoParams demoSession
      (ExecutableDeployItemJsonWrapper.fromExecutionDeployItem
         (ExecutableDeployItem.ofModuleBytes (standardPayment 2500000000)))
    = Ok deploy
    /\ Deploy.isStandardPayment deploy = true.
Proof.
  destruct (@makeDeploy_isStandardPayment demoBlake demoKeys demoCodec
              demoParams demoSession
              (@StoredContractByName.toBytes demoCodec
                 (StoredContractByName.new "counter" "increment"
                    (RuntimeArgs.fromMap [])))
              [] demoArgs 2500000000 eq_refl)
    as (_ & deploy & Hm & Hstd & _).
  exists deploy. split; assumption.
Defined.

(** X9: when [newTransfer] succeeds only the transfer slot of the wrapper
    is populated, and a deploy made with it as session is a transfer;
    [newTransfer] throws exactly when the target is missing. *)
Theorem newTransfer_isTransfer `{Blake} `{KeyLibrary} `{RuntimeArgsCodec}
    (amount : Z) (target : TransferTarget) (sourcePurse : option URef)
    (id : option Z) (deployParam : DeployParams.t)
    (payment : ExecutableDeployItemJsonWrapper.t) (paymentBytes : ByteArray) :
  ExecutableDeployItemJsonWrapper.toBytes payment = Ok paymentBytes ->
  match ExecutableDeployItemJsonWrapper.newTransfer amount target sourcePurse id with
  | Ok w =>
      target <> Target_missing
      /\ (exists tr,
             Transfer.new amount target sourcePurse id = Ok tr
             /\ ExecutableDeployItemJsonWrapper.populated w
                = [ExecutableDeployItem.ofTransfer tr])
      /\ ExecutableDeployItemJsonWrapper.isTransfer w = true
      /\ (exists deploy,
             makeDeploy deployParam w payment = Ok deploy
             /\ Deploy.isTransfer deploy = true)
  | Throw message =>
      target = Target_missing /\ message = "Please specify target"%string
  end.
Proof.
  intros Hp. unfold ExecutableDeployItemJsonWrapper.newTransfer.
  destruct (Transfer.new amount target sourcePurse id) as [tr|m] eqn:E;
    cbn [result_bind].
  - split; [intros ->; destruct sourcePurse; discriminate E|].
    split; [exists tr; split; reflexivity|].
    split; [reflexivity|].
    unfold makeDeploy, serializeBody. rewrite Hp, wrapper_toBytes_first.
    replace (ExecutableDeployItemJsonWrapper.populated _)
      with [ExecutableDeployItem.ofTransfer tr] by reflexivity.
    rewrite item_toBytes_Ok. cbn [result_bind].
    eexists. split; reflexivity.
  - revert E.
    cbv [Transfer.new result_bind CLValue_option Option.new option_map falsy].
    destruct target as [u|k|]; [| |intros E; injection E as <-; now split];
      (destruct id as [z|]; [destruct (z =? 0)|]); intros E; discriminate E.
Qed.

(** A transfer of 100 motes to a public key, paid for in the standard
    way. *)
Lemma newTransfer_isTransfer_witness :
  exists w deploy,
    @ExecutableDeployItemJsonWrapper.newTransfer demoKeys 100
      (Target_PublicKey demoKey) None None = Ok w
    /\ @makeDeploy demoBlake demoKeys demoCodec demoParams w demoPayment
       = Ok deploy
    /\ Deploy.isTransfer deploy = true.
Proof.
  pose proof (@newTransfer_isTransfer demoBlake demoKeys demoCodec 100
                (Target_PublicKey demoKey) None None demoParams demoPayment
                (@ModuleBytes.toBytes demoCodec (ModuleBytes.new [] demoArgs))
                eq_refl) as Hw.
  cbn in Hw. destruct Hw as (_ & _ & _ & deploy & Hm & Ht).
  eexists. exists deploy. split; [reflexivity|]. split; assumption.
Defined.


(** ** Signing here and signing elsewhere *)

(** X11: for a key whose account identifier and algorithm are those of its
    public key, [signDeploy] does what [setSignature] does with the
    signature of the deploy hash under that key. *)
Theorem signDeploy_as_setSignature `{KeyLibrary} (σ : Store) (deploy : ref)
    (d : Deploy.t) (signingKey : AsymmetricKey) :
  σ !! deploy = Some d ->
  AsymmetricKey_accountHex signingKey
  = PublicKey_toAccountHex (publicKey signingKey) ->
  signatureAlgorithm signingKey
  = PublicKey_signatureAlgorithm (publicKey signingKey) ->
  signDeploy deploy signingKey σ
  = setSignature deploy (AsymmetricKey_sign signingKey (Deploy.hash d))
      (publicKey signingKey) σ.
Proof.
  intros Hd Hhex Halg.
  unfold signDeploy, setSignature, store_bind, load. rewrite Hd.
  cbv beta iota. now rewrite Hhex, Halg.
Qed.

Lemma signDeploy_as_setSignature_witness :
  @signDeploy demoKeys 0%nat demoSigner {[ 0%nat := demoDeploy ]}
  = @setSignature demoKeys 0%nat [x07; x11] demoKey {[ 0%nat := demoDeploy ]}.
Proof.
  apply (@signDeploy_as_setSignature demoKeys {[ 0%nat := demoDeploy ]}
           0%nat demoDeploy demoSigner).
  - apply lookup_singleton_eq.
  - reflexivity.
  - reflexivity.
Defined.

(** ** Comparing versions *)

Lemma threeParts_nth `{Storage.NumberBuiltin} (v : string) (a0 a1 a2 : Z) :
  threeParts v a0 a1 a2 ->
  let parts := map Storage.Number (Storage.split "." v) in
  nth_error parts 0 = Some (Storage.Num a0)
  /\ nth_error parts 1 = Some (Storage.Num a1)
  /\ nth_error parts 2 = Some (Storage.Num a2).
Proof.
  intros Hv. cbv zeta. unfold threeParts in Hv.
  destruct (map Storage.Number (Storage.split "." v))
    as [|x [|y [|z rest]]]; try discriminate Hv.
  cbn in Hv. injection Hv as -> -> ->. repeat split.
Qed.

Lemma isVersionGreaterOrEqual_triples `{Storage.NumberBuiltin}
    (v1 v2 : string) (a0 a1 a2 b0 b1 b2 : Z) :
  threeParts v1 a0 a1 a2 -> threeParts v2 b0 b1 b2 ->
  Storage.isVersionGreaterOrEqual v1 v2 = true
  <-> tripleGe a0 a1 a2 b0 b1 b2.
Proof.
  intros H1 H2.
  destruct (threeParts_nth _ _ _ _ H1) as (A0 & A1 & A2).
  destruct (threeParts_nth _ _ _ _ H2) as (B0 & B1 & B2).
  unfold Storage.isVersionGreaterOrEqual, tripleGe.
  rewrite A0, A1, A2, B0, B1, B2. cbn [Storage.gt Storage.strictEq].
  rewrite !orb_true_iff, !andb_true_iff, !Z.ltb_lt, !Z.eqb_eq. lia.
Qed.

(** X12: on versions that start with three integer parts,
    [isVersionGreaterOrEqual] is the order of the triples, the first part
    weighing most and parts after the third ignored: every version is at
    least itself, of two versions one is at least the other, and two
    versions that are each at least the other have the same triple. *)
Theorem isVersionGreaterOrEqual_total `{Storage.NumberBuiltin}
    (v1 v2 : string) (a0 a1 a2 b0 b1 b2 : Z) :
  threeParts v1 a0 a1 a2 -> threeParts v2 b0 b1 b2 ->
  (Storage.isVersionGreaterOrEqual v1 v2 = true
   <-> tripleGe a0 a1 a2 b0 b1 b2)
  /\ Storage.isVersionGreaterOrEqual v1 v1 = true
  /\ (Storage.isVersionGreaterOrEqual v1 v2 = true
      \/ Storage.isVersionGreaterOrEqual v2 v1 = true)
  /\ (Storage.isVersionGreaterOrEqual v1 v2 = true ->
      Storage.isVersionGreaterOrEqual v2 v1 = true ->
      a0 = b0 /\ a1 = b1 /\ a2 = b2).
Proof.
  intros H1 H2.
  rewrite (isVersionGreaterOrEqual_triples v1 v2 _ _ _ _ _ _ H1 H2).
  rewrite (isVersionGreaterOrEqual_triples v2 v1 _ _ _ _ _ _ H2 H1).
  rewrite (isVersionGreaterOrEqual_triples v1 v1 _ _ _ _ _ _ H1 H1).
  unfold tripleGe. repeat split; try tauto; lia.
Qed.

Lemma isVersionGreaterOrEqual_total_witness :
  @Storage.isVersionGreaterOrEqual demoNumber "1.4.5" "1.2.0" = true
  /\ @Storage.isVersionGreaterOrEqual demoNumber "1.4.5" "1.4.5" = true.
Proof.
  destruct (@isVersionGreaterOrEqual_total demoNumber "1.4.5" "1.2.0"
              1 4 5 1 2 0 eq_refl eq_refl) as (Hge & Hrefl & _).
  split; [|exact Hrefl].
  apply Hge. unfold tripleGe. lia.
Defined.

(** X13: on versions that start with three integer parts,
    [isVersionGreaterOrEqual] is transitive. *)
Theorem isVersionGreaterOrEqual_trans `{Storage.NumberBuiltin}
    (v1 v2 v3 : string) (a0 a1 a2 b0 b1 b2 c0 c1 c2 : Z) :
  threeParts v1 a0 a1 a2 -> threeParts v2 b0 b1 b2 ->
  threeParts v3 c0 c1 c2 ->
  Storage.isVersionGreaterOrEqual v1 v2 = true ->
  Storage.isVersionGreaterOrEqual v2 v3 = true ->
  Storage.isVersionGreaterOrEqual v1 v3 = true.
Proof.
  intros H1 H2 H3.
  rewrite (isVersionGreaterOrEqual_triples v1 v2 _ _ _ _ _ _ H1 H2).
  rewrite (isVersionGreaterOrEqual_triples v2 v3 _ _ _ _ _ _ H2 H3).
  rewrite (isVersionGreaterOrEqual_triples v1 v3 _ _ _ _ _ _ H1 H3).
  unfold tripleGe. lia.
Qed.

Lemma isVersionGreaterOrEqual_trans_witness :
  @Storage.isVersionGreaterOrEqual demoNumber "2.0.0" "1.2.0" = true.
Proof.
  apply (@isVersionGreaterOrEqual_trans demoNumber "2.0.0" "1.10.3" "1.2.0"
           2 0 0 1 10 3 1 2 0); reflexivity.
Defined.

(** X14: a version of only two parts and a version of three parts that
    starts with the same two are not comparable: neither is at least the
    other, whatever the third part is. *)
Theorem isVersionGreaterOrEqual_two_parts `{Storage.NumberBuiltin}
    (v1 v2 : string) (a0 a1 b2 : Z) :
  map Storage.Number (Storage.split "." v1)
  = [Storage.Num a0; Storage.Num a1] ->
  threeParts v2 a0 a1 b2 ->
  Storage.isVersionGreaterOrEqual v1 v2 = false
  /\ Storage.isVersionGreaterOrEqual v2 v1 = false
  /\ Storage.isVersionGreaterOrEqual v1 v1 = true.
Proof.
  intros H1 H2.
  destruct (threeParts_nth _ _ _ _ H2) as (B0 & B1 & B2).
  unfold Storage.isVersionGreaterOrEqual.
  rewrite B0, B1, B2, H1. cbn [nth_error Storage.gt Storage.strictEq].
  rewrite !Z.ltb_irrefl, !Z.eqb_refl. repeat split.
Qed.

Lemma isVersionGreaterOrEqual_two_parts_witness :
  @Storage.isVersionGreaterOrEqual demoNumber "1.2" "1.2.0" = false
  /\ @Storage.isVersionGreaterOrEqual demoNumber "1.2.0" "1.2" = false.
Proof.
  destruct (@isVersionGreaterOrEqual_two_parts demoNumber "1.2" "1.2.0"
              1 2 0 eq_refl eq_refl) as (Ha & Hb & _).
  split; assumption.
Defined.

(** X15: a version whose first part is not a number is at least nothing
    and nothing is at least it, itself included. *)
Theorem isVersionGreaterOrEqual_NaN `{Storage.NumberBuiltin}
    (v1 v2 : string) :
  nth_error (map Storage.Number (Storage.split "." v1)) 0 = Some Storage.NaN ->
  Storage.isVersionGreaterOrEqual v1 v2 = false
  /\ Storage.isVersionGreaterOrEqual v2 v1 = false
  /\ Storage.isVersionGreaterOrEqual v1 v1 = false.
Proof.
  intros H1. unfold Storage.isVersionGreaterOrEqual. rewrite H1.
  cbn [Storage.gt Storage.strictEq].
  destruct (nth_error (map Storage.Number (Storage.split "." v2)) 0)
    as [[z|]|]; repeat split.
Qed.

Lemma isVersionGreaterOrEqual_NaN_witness :
  @Storage.isVersionGreaterOrEqual demoNumber "v1.2.0" "1.2.0" = false
  /\ @Storage.isVersionGreaterOrEqual demoNumber "v1.2.0" "v1.2.0" = false.
Proof.
  destruct (@isVersionGreaterOrEqual_NaN demoNumber "v1.2.0" "1.2.0" eq_refl)
    as (Ha & _ & Hc).
  split; assumption.
Defined.

(** ** Building a query *)

Lemma buildWhere_lookup {V : Type} (criteria : gmap string V)
    (availableCriteriaFields : list string) (key : string) :
  Storage.buildWhere criteria availableCriteriaFields !! key
  = if bool_decide (key ∈ availableCriteriaFields)
    then criteria !! key
    else None.
Proof.
  unfold Storage.buildWhere. revert key.
  apply (map_fold_weak_ind
           (fun (r m : gmap string V) =>
              forall key,
                r !! key
                = if bool_decide (key ∈ availableCriteriaFields)
                  then m !! key else None)).
  - intros key. rewrite !lookup_empty. now destruct (bool_decide _).
  - intros i x m r Hi IH key.
    destruct (decide (key = i)) as [->|Hne].
    + destruct (bool_decide (i ∈ availableCriteriaFields)) eqn:E.
      * now rewrite !lookup_insert_eq.
      * rewrite IH, E. reflexivity.
    + rewrite lookup_insert_ne by congruence.
      destruct (bool_decide (i ∈ availableCriteriaFields)).
      * rewrite lookup_insert_ne by congruence. apply IH.
      * apply IH.
Qed.

(** X16: [buildWhere] keeps a criterion, with its value, exactly when its
    name is among the available fields; every other criterion is dropped
    without an error, so the result is part of the criteria, and with no
    available field it is empty. *)
Theorem buildWhere_only_available {V : Type} (criteria : gmap string V)
    (availableCriteriaFields : list string) :
  (forall key,
      Storage.buildWhere criteria availableCriteriaFields !! key
      = if bool_decide (key ∈ availableCriteriaFields)
        then criteria !! key
        else None)
  /\ Storage.buildWhere criteria availableCriteriaFields ⊆ criteria
  /\ Storage.buildWhere criteria [] = ∅
  /\ Storage.buildWhere
       (Storage.buildWhere criteria availableCriteriaFields)
       availableCriteriaFields
     = Storage.buildWhere criteria availableCriteriaFields.
Proof.
  split; [apply buildWhere_lookup|]. split; [|split].
  - apply map_subseteq_spec. intros key v. rewrite buildWhere_lookup.
    destruct (bool_decide _); [trivial | discriminate].
  - apply map_eq. intros key. rewrite buildWhere_lookup, lookup_empty.
    rewrite bool_decide_eq_false_2; [reflexivity | apply not_elem_of_nil].
  - apply map_eq. intros key. rewrite !buildWhere_lookup.
    now destruct (bool_decide _).
Qed.

(** X17: [buildOrder] orders by the requested field only when it is a
    non-empty name among the available fields, and then by that field
    alone, in the requested direction or descending when none is given;
    in every other case it answers the default order. *)
Theorem buildOrder_only_available (orderBy orderDirection : option string)
    (availableOrderFields : list string)
    (defaultOrder : list (string * string)) (field direction : string) :
  In (field, direction)
     (Storage.buildOrder orderBy orderDirection availableOrderFields
        defaultOrder) ->
  (Storage.buildOrder orderBy orderDirection availableOrderFields defaultOrder
   = defaultOrder
   /\ In (field, direction) defaultOrder)
  \/ (Storage.buildOrder orderBy orderDirection availableOrderFields
        defaultOrder
      = [(field, direction)]
      /\ orderBy = Some field
      /\ field <> ""%string
      /\ field ∈ availableOrderFields
      /\ (orderDirection = Some direction /\ direction <> ""%string
          \/ direction = "DESC"%string
             /\ Storage.truthy orderDirection = false)).
Proof.
  unfold Storage.buildOrder.
  destruct orderBy as [f|]; [|intros Hin; now left].
  destruct (Storage.truthy (Some f)) eqn:Ht; cbn [andb];
    [|intros Hin; now left].
  destruct (bool_decide (f ∈ availableOrderFields)) eqn:Ef;
    [|intros Hin; now left].
  apply bool_decide_eq_true_1 in Ef.
  assert (Hf : f <> ""%string) by (intros ->; discriminate Ht).
  intros [Hin|[]]. injection Hin as <- Hd. right.
  split; [now rewrite Hd|]. split; [reflexivity|]. split; [exact Hf|].
  split; [exact Ef|].
  destruct orderDirection as [d|]; [|right; now split].
  destruct (Storage.truthy (Some d)) eqn:Hd'.
  - left. subst d. split; [reflexivity|]. intros ->. discriminate Hd'.
  - right. now split.
Qed.

Lemma buildOrder_only_available_witness :
  Storage.buildOrder (Some "cost"%string) None
    ["cost"; "timestamp"; "errorMessage"]%string
    [("timestamp", "DESC")]%string
  = [("cost", "DESC")]%string.
Proof.
  destruct (buildOrder_only_available (Some "cost"%string) None
              ["cost"; "timestamp"; "errorMessage"]%string
              [("timestamp", "DESC")]%string "cost" "DESC")
    as [[_ Hin]|[Heq _]].
  - left. reflexivity.
  - exfalso. destruct Hin as [Hin|[]]. discriminate Hin.
  - exact Heq.
Defined.

(** ** Reading an encoded optional value *)

(** X18: two optional values with the same encoding are both absent or
    both present, and when present their values have the same encoding; the
    type descriptor plays no part. *)
Theorem Option_toBytes_apart {T : Type} `{ToBytes T}
    (o1 o2 : Option.Option T) :
  Option.toBytes o1 = Option.toBytes o2 ->
  Option.isNone o1 = Option.isNone o2
  /\ option_map to_bytes (Option.t o1) = option_map to_bytes (Option.t o2).
Proof.
  unfold Option.toBytes, Option.isNone.
  destruct (Option.t o1) as [v1|], (Option.t o2) as [v2|]; cbn;
    rewrite ?app_nil_r; intros E; try discriminate E.
  - injection E as ->. now split.
  - now split.
Qed.

(** An absent u32 and an absent u64. *)
Lemma Option_toBytes_apart_witness :
  Option.isNone (Option.mk (@None U32) (Some CLType_u32))
  = Option.isNone (Option.mk (@None U32) (Some CLType_u64)).
Proof.
  apply (@Option_toBytes_apart U32 U32_ToBytes
           (Option.mk None (Some CLType_u32))
           (Option.mk None (Some CLType_u64))).
  reflexivity.
Defined.

(** ** From parameters to header *)

(** X19: a deploy made from freshly constructed parameters carries in its
    header the account and the chain name as given, the gas price 10 and
    the ttl 3600000 when these are left out, the time of construction when
    the timestamp is left out or is 0, and the dependencies that occur once
    in the input. *)
Theorem makeDeploy_header_of_new_params `{Blake} `{KeyLibrary}
    `{RuntimeArgsCodec} (accountPublicKey : PublicKey) (chainName : string)
    (gasPrice ttl : option Z) (dependencies : option (list ByteArray))
    (timestamp : option Z) (now : Z)
    (session payment : ExecutableDeployItemJsonWrapper.t)
    (paymentBytes sessionBytes : ByteArray) :
  ExecutableDeployItemJsonWrapper.toBytes payment = Ok paymentBytes ->
  ExecutableDeployItemJsonWrapper.toBytes session = Ok sessionBytes ->
  exists deploy,
    makeDeploy
      (DeployParams.new accountPublicKey chainName gasPrice ttl dependencies
         timestamp now)
      session payment
    = Ok deploy
    /\ DeployHeader.account (Deploy.header deploy) = accountPublicKey
    /\ DeployHeader.chainName (Deploy.header deploy) = chainName
    /\ DeployHeader.gasPrice (Deploy.header deploy) = default 10 gasPrice
    /\ DeployHeader.ttl (Deploy.header deploy) = default 3600000 ttl
    /\ DeployHeader.timestamp (Deploy.header deploy)
       = match timestamp with
         | Some ts => if ts =? 0 then now else ts
         | None => now
         end
    /\ DeployHeader.dependencies (Deploy.header deploy)
       = occurringOnce (default [] dependencies)
    /\ List.NoDup (DeployHeader.dependencies (Deploy.header deploy)).
Proof.
  intros Hp Hs. unfold makeDeploy, serializeBody. rewrite Hp, Hs.
  cbn [result_bind]. eexists. split; [reflexivity|].
  cbn [Deploy.header DeployHeader.account DeployHeader.chainName
       DeployHeader.gasPrice DeployHeader.ttl DeployHeader.timestamp
       DeployHeader.dependencies].
  rewrite DeployParams_new_dependencies.
  repeat split; try apply NoDup_occurringOnce.
  destruct timestamp as [ts|]; cbn; [destruct (ts =? 0)|]; reflexivity.
Qed.

(** The timestamp 0 and a dependency given twice. *)
Lemma makeDeploy_header_of_new_params_witness :
  exists deploy,
    @makeDeploy demoBlake demoKeys demoCodec
      (DeployParams.new demoKey "casper-test" None None
         (Some [[x01]; [x02]; [x01]]) (Some 0) 1600000000000)
      demoSession demoPayment
    = Ok deploy
    /\ DeployHeader.timestamp (Deploy.header deploy) = 1600000000000
    /\ DeployHeader.dependencies (Deploy.header deploy) = [[x02]].
Proof.
  destruct (@makeDeploy_header_of_new_params demoBlake demoKeys demoCodec
              demoKey "casper-test" None None (Some [[x01]; [x02]; [x01]])
              (Some 0) 1600000000000 demoSession demoPayment
              (@ModuleBytes.toBytes demoCodec (ModuleBytes.new [] demoArgs))
              (@StoredContractByName.toBytes demoCodec
                 (StoredContractByName.new "counter" "increment"
                    (RuntimeArgs.fromMap [])))
              eq_refl eq_refl)
    as (deploy & Hm & _ & _ & _ & _ & Hts & Hdeps & _).
  exists deploy. split; [exact Hm|]. split; [exact Hts | exact Hdeps].
Defined.
